(** * OpenEMR appointment-search agent: a shallow embedding of
      [ai_agent/openemr_client.py] and [ai_agent/tools/find_appointments.py]

    The development follows the two Python modules.  Values that the
    Python code treats as [Any] are JSON values; dictionaries are finite
    maps from strings; the calls that leave the process ([httpx] requests,
    [time.monotonic()], [client.get]) are answered by oracles and recorded
    in an explicit state, so that statements about "which requests were
    issued" are statements about that record. *)

From stdpp Require Import base option list gmap strings pretty.
From Stdlib Require Import ZArith Ascii Permutation Lia.

Set Warnings "-register-all".
Open Scope string_scope.
Open Scope Z_scope.

(* ===================================================================== *)
(** * Python values                                                       *)
(* ===================================================================== *)

Module Py.

(** A decoded JSON document.  Python's [None] is [JNull].  Sequences are
    sequences of objects, as the annotations [list[dict[str, Any]]] of the
    source say; numbers are integers (floating point is outside the
    model). *)
Inductive json :=
  | JNull
  | JBool (b : bool)
  | JInt (z : Z)
  | JStr (s : string)
  | JList (l : list (gmap string json))
  | JDict (d : gmap string json).

(** [dict[str, Any]] *)
Abbreviation record := (gmap string json).

#[global] Instance json_inhabited : Inhabited json := populate JNull.

(** [str()] of a list or of a dict prints Python's [repr] of the
    container.  That rendering is not modelled: it is a parameter, and
    nothing below depends on what it prints. *)
Class PyRepr := py_repr : json → string.

(** [bool(v)] *)
Definition py_truthy (v : json) : bool :=
  match v with
  | JNull => false
  | JBool b => b
  | JInt z => negb (Z.eqb z 0)
  | JStr s => negb (String.eqb s "")
  | JList l => match l with [] => false | _ => true end
  | JDict d => negb (Nat.eqb (size d) 0)
  end.

(** [str(v)], what an f-string substitutes for [{v}] *)
Definition py_str `{PyRepr} (v : json) : string :=
  match v with
  | JNull => "None"
  | JBool true => "True"
  | JBool false => "False"
  | JInt z => pretty z
  | JStr s => s
  | JList _ | JDict _ => py_repr v
  end.

(** [v == s] for a [str] [s]: only an equal string compares equal. *)
Definition py_eq_str (v : json) (s : string) : bool :=
  match v with
  | JStr s' => String.eqb s' s
  | _ => false
  end.

(** [a or b] *)
Definition py_or (a b : json) : json := if py_truthy a then a else b.

(** [d.get(k)] *)
Definition dict_get (d : record) (k : string) : json := default JNull (d !! k).

(** [d.get(k, dflt)] *)
Definition dict_get_or (d : record) (k : string) (dflt : json) : json :=
  default dflt (d !! k).

(** Truthiness of an argument of type [str | None]. *)
Definition opt_truthy (o : option string) : bool :=
  match o with
  | Some s => negb (String.eqb s "")
  | None => false
  end.

(** ** Strings

    Strings are byte strings; [lower] and [strip] act on the ASCII range
    (case mapping and white space of other scripts are outside the
    model). *)

Definition lower_ascii (c : ascii) : ascii :=
  let n := nat_of_ascii c in
  if (Nat.leb 65 n && Nat.leb n 90)%bool then ascii_of_nat (n + 32) else c.

(** [s.lower()] *)
Fixpoint lower (s : string) : string :=
  match s with
  | EmptyString => EmptyString
  | String c s' => String (lower_ascii c) (lower s')
  end.

(** [c.isspace()] on ASCII: TAB..CR, FS..US and the blank. *)
Definition is_space (c : ascii) : bool :=
  let n := nat_of_ascii c in
  ((Nat.leb 9 n && Nat.leb n 13) || (Nat.leb 28 n && Nat.leb n 32))%bool.

Fixpoint lstrip (s : string) : string :=
  match s with
  | EmptyString => EmptyString
  | String c s' => if is_space c then lstrip s' else s
  end.

Fixpoint rstrip (s : string) : string :=
  match s with
  | EmptyString => EmptyString
  | String c s' =>
      match rstrip s' with
      | EmptyString => if is_space c then EmptyString else String c EmptyString
      | r => String c r
      end
  end.

(** [s.strip()] *)
Definition strip (s : string) : string := rstrip (lstrip s).

(** [needle in haystack] *)
Fixpoint contains (needle haystack : string) : bool :=
  (String.prefix needle haystack ||
   match haystack with
   | EmptyString => false
   | String _ h' => contains needle h'
   end)%bool.

End Py.
Export Py.

(* ===================================================================== *)
(** * Exceptions and the state-and-error monad                            *)
(* ===================================================================== *)

(** An [httpx.Response]: the status line, the body text, and the body as
    [resp.json()] decodes it ([None] when decoding raises). *)
Record response := {
  status_code : Z;
  text : string;
  decoded : option json;
}.

Inductive exn :=
  | OpenEMRAuthError (msg : string)
  | HTTPStatusError (resp : response)   (* raised by [raise_for_status] *)
  | TimeoutException
  | JSONDecodeError
  | KeyError (key : string)
  | TypeError
  | ValueError.

Inductive res (A : Type) :=
  | Ok (a : A)
  | Raise (e : exn).
Arguments Ok {A} a.
Arguments Raise {A} e.

#[global] Instance res_ret : MRet res := λ A a, Ok a.
#[global] Instance res_bind : MBind res := λ A B f m,
  match m with
  | Ok a => f a
  | Raise e => Raise e
  end.

(** A computation over a state [S] that returns or raises; the state
    reached is kept in both cases. *)
Definition M (S A : Type) : Type := S → res A * S.

#[global] Instance M_ret {S} : MRet (M S) := λ A a s, (Ok a, s).
#[global] Instance M_bind {S} : MBind (M S) := λ A B f m s,
  match m s with
  | (Ok a, s') => f a s'
  | (Raise e, s') => (Raise e, s')
  end.

Definition raise {S A} (e : exn) : M S A := λ s, (Raise e, s).
Definition lift {S A} (r : res A) : M S A := λ s, (r, s).
Definition get_state {S} : M S S := λ s, (Ok s, s).
Definition put_state {S} (s : S) : M S () := λ _, (Ok (), s).

(** A list comprehension whose element expression may raise. *)
Fixpoint comprehension {A B} (f : A → res B) (l : list A) : res (list B) :=
  match l with
  | [] => Ok []
  | x :: l' => y ← f x; ys ← comprehension f l'; Ok (y :: ys)
  end.

(* ===================================================================== *)
(** * [openemr_client.py]: token life cycle and authenticated transport   *)
(* ===================================================================== *)

Module Client.

Definition DEFAULT_SCOPES : string :=
  "openid api:oemr system/Appointment.read system/Encounter.read system/Patient.read".

(** Re-authenticate when the token has less than this many seconds
    remaining. *)
Definition _TOKEN_REFRESH_MARGIN_SECS : Z := 60.

(** ** Requests as [httpx] receives them *)

Inductive method := GET | POST.

Record request := {
  req_method : method;
  req_path : string;
  req_params : option record;              (* [params=] *)
  req_data : option (list (string * string));  (* [data=], a form *)
  req_json : option record;                (* [json=] *)
  req_headers : list (string * string);    (* [headers=] *)
}.

(** ** The client object *)

Record OpenEMRClient := {
  base_url : string;
  client_id : string;
  client_secret : string;
  username : string;
  password : string;
  scopes : string;
  _access_token : json;       (* [str | None]; [None] is [JNull] *)
  _token_expiry : Z;          (* a reading of the monotonic clock, in seconds *)
}.

Fixpoint rstrip_slash (s : string) : string :=
  match s with
  | EmptyString => EmptyString
  | String c s' =>
      match rstrip_slash s' with
      | EmptyString =>
          if Ascii.eqb c "/" then EmptyString else String c EmptyString
      | r => String c r
      end
  end.

(** [OpenEMRClient.__init__], with the defaults of [username], [password]
    and [scopes] written out by the caller. *)
Definition init (base_url client_id client_secret username password scopes : string)
  : OpenEMRClient :=
  {| base_url := rstrip_slash base_url;
     client_id := client_id;
     client_secret := client_secret;
     username := username;
     password := password;
     scopes := scopes;
     _access_token := JNull;
     _token_expiry := 0 |}.

Definition set_token (c : OpenEMRClient) (tok : json) : OpenEMRClient :=
  {| base_url := base_url c; client_id := client_id c;
     client_secret := client_secret c; username := username c;
     password := password c; scopes := scopes c;
     _access_token := tok; _token_expiry := _token_expiry c |}.

Definition set_expiry (c : OpenEMRClient) (t : Z) : OpenEMRClient :=
  {| base_url := base_url c; client_id := client_id c;
     client_secret := client_secret c; username := username c;
     password := password c; scopes := scopes c;
     _access_token := _access_token c; _token_expiry := t |}.

(** ** [int(v)] *)

Definition digit_of (c : ascii) : option Z :=
  let n := nat_of_ascii c in
  if (Nat.leb 48 n && Nat.leb n 57)%bool then Some (Z.of_nat (n - 48)) else None.

(** Decimal digits, single underscores allowed between two digits. *)
Fixpoint parse_digits (acc : Z) (after_digit : bool) (s : string) : option Z :=
  match s with
  | EmptyString => if after_digit then Some acc else None
  | String c s' =>
      match digit_of c with
      | Some d => parse_digits (10 * acc + d) true s'
      | None =>
          if (Ascii.eqb c "_" && after_digit)%bool
          then parse_digits acc false s'
          else None
      end
  end.

Definition int_of_str (s : string) : option Z :=
  match strip s with
  | String "-" r => Z.opp <$> parse_digits 0 false r
  | String "+" r => parse_digits 0 false r
  | r => parse_digits 0 false r
  end.

Definition py_int (v : json) : res Z :=
  match v with
  | JInt z => Ok z
  | JBool b => Ok (if b then 1 else 0)
  | JStr s => match int_of_str s with Some z => Ok z | None => Raise ValueError end
  | JNull | JList _ | JDict _ => Raise TypeError
  end.

(** [payload[key]] with a string key: only a dict can be subscripted so. *)
Definition subscript (payload : json) (key : string) : res json :=
  match payload with
  | JDict d => match d !! key with Some v => Ok v | None => Raise (KeyError key) end
  | _ => Raise TypeError
  end.

(** [payload.get(key, dflt)], reached only after [payload[...]] returned. *)
Definition payload_get (payload : json) (key : string) (dflt : json) : res json :=
  match payload with
  | JDict d => Ok (dict_get_or d key dflt)
  | _ => Raise TypeError
  end.

(** [resp.json()] *)
Definition json_of (resp : response) : res json :=
  match decoded resp with
  | Some j => Ok j
  | None => Raise JSONDecodeError
  end.

(** [resp.raise_for_status()] of httpx: every status outside 200..299
    raises [HTTPStatusError], which carries the response. *)
Definition is_success (status : Z) : bool := (200 <=? status) && (status <=? 299).

Definition raise_for_status (resp : response) : res () :=
  if is_success (status_code resp) then Ok () else Raise (HTTPStatusError resp).

(** ** The world around the client

    The remote service answers a request as a function of everything that
    was sent before it (or the exchange raises, e.g. on a timeout); the
    monotonic clock returns its [n]-th reading, in whole seconds (the
    rounding of floating-point readings is outside the model). *)

Record session := {
  self : OpenEMRClient;
  sent : list request;       (* requests issued so far, oldest first *)
  clock_reads : nat;
}.

(** The session after one more request went out. *)
Definition sending (s : session) (r : request) : session :=
  {| self := self s; sent := sent s ++ [r]; clock_reads := clock_reads s |}.

(** The session after one more reading of the clock. *)
Definition tick (s : session) : session :=
  {| self := self s; sent := sent s; clock_reads := S (clock_reads s) |}.

Section Transport.
Context `{PyRepr}.
Context (server : list request → request → res response).
Context (clock : nat → Z).

Definition send (r : request) : M session response := λ s,
  (server (sent s) r, sending s r).

(** [time.monotonic()] *)
Definition monotonic : M session Z := λ s,
  (Ok (clock (clock_reads s)), tick s).

Definition get_self : M session OpenEMRClient := λ s, (Ok (self s), s).

Definition update_self (f : OpenEMRClient → OpenEMRClient) : M session () := λ s,
  (Ok (), {| self := f (self s); sent := sent s; clock_reads := clock_reads s |}).

(** The form of the password grant. *)
Definition token_form (c : OpenEMRClient) : list (string * string) :=
  [("grant_type", "password");
   ("username", username c);
   ("password", password c);
   ("client_id", client_id c);
   ("scope", scopes c)]
  ++ (if negb (String.eqb (client_secret c) "")
      then [("client_secret", client_secret c)] else []).

Definition token_request (c : OpenEMRClient) : request :=
  {| req_method := POST; req_path := "/oauth2/default/token";
     req_params := None; req_data := Some (token_form c);
     req_json := None; req_headers := [] |}.

Definition auth_error_message (status : Z) (body : string) : string :=
  "Token request failed (" +:+ pretty status +:+ "): " +:+ body.

(** [OpenEMRClient.authenticate] *)
Definition authenticate : M session () :=
  c ← get_self;
  resp ← send (token_request c);
  if negb (Z.eqb (status_code resp) 200) then
    raise (OpenEMRAuthError (auth_error_message (status_code resp) (text resp)))
  else
    payload ← lift (json_of resp);
    tok ← lift (subscript payload "access_token");
    update_self (λ c, set_token c tok);;
    dflt ← lift (payload_get payload "expires_in" (JInt 3600));
    expires_in ← lift (py_int dflt);
    now ← monotonic;
    update_self (λ c, set_expiry c (now + expires_in)).

(** [OpenEMRClient._token_is_valid]; [and] does not read the clock when
    there is no token. *)
Definition _token_is_valid : M session bool :=
  c ← get_self;
  match _access_token c with
  | JNull => mret false
  | _ =>
      now ← monotonic;
      mret (now <? _token_expiry c - _TOKEN_REFRESH_MARGIN_SECS)
  end.

(** [OpenEMRClient._ensure_token] *)
Definition _ensure_token : M session () :=
  valid ← _token_is_valid;
  if negb valid then authenticate else mret ().

(** [OpenEMRClient._auth_headers] *)
Definition _auth_headers (self : OpenEMRClient) : list (string * string) :=
  [("Authorization", "Bearer " +:+ py_str (_access_token self))].

(** The request of [self._http.get(path, params=params, headers=...)] or
    of [self._http.post(path, json=json, headers=...)]. *)
Definition api_request (m : method) (path : string) (arg : option record)
    (headers : list (string * string)) : request :=
  match m with
  | GET => {| req_method := GET; req_path := path; req_params := arg;
              req_data := None; req_json := None; req_headers := headers |}
  | POST => {| req_method := POST; req_path := path; req_params := None;
               req_data := None; req_json := arg; req_headers := headers |}
  end.

(** The common body of [get] and [post]; the two differ in the [httpx]
    call only. *)
Definition call (m : method) (path : string) (arg : option record) : M session json :=
  _ensure_token;;
  c ← get_self;
  resp ← send (api_request m path arg (_auth_headers c));
  resp ←
    (if Z.eqb (status_code resp) 401 then
       authenticate;;
       c ← get_self;
       send (api_request m path arg (_auth_headers c))
     else mret resp);
  lift (raise_for_status resp);;
  lift (json_of resp).

(** [OpenEMRClient.get] *)
Definition get (path : string) (params : option record) : M session json :=
  call GET path params.


End Transport.

End Client.

(* ===================================================================== *)
(** * [tools/find_appointments.py]                                        *)
(* ===================================================================== *)

Module Tool.

(** OpenEMR appointment status codes → human labels. *)
Definition _STATUS_LABELS : gmap string string :=
  list_to_map
    [("-", "Open");
     ("@", "Arrived");
     ("~", "Arrived late");
     ("!", "Left w/o being seen");
     ("#", "Ins/fin issue");
     ("<", "In exam room");
     (">", "Checked out");
     ("$", "Coding done");
     ("%", "Cancelled");
     ("x", "No show");
     ("^", "Pending")].

(** ** The shapes the tool returns *)

(** One entry of ["appointments"]. *)
Module Appt.
Record t := {
  appointment_id : json;
  patient_name : string;
  patient_id : json;
  provider_name : string;
  date : json;
  start_time : json;
  end_time : json;
  status : json;
  status_label : json;
  category : json;
  facility : json;
  reason : json;
}.
End Appt.

(** One entry of ["matching_patients"]. *)
Module Match.
Record t := {
  patient_id : json;
  name : string;
  DOB : json;
}.
End Match.

(** The dict the tool returns; a key that is not set is [None] here. *)
Module Result.
Record t := {
  appointments : list Appt.t;
  total_count : Z;
  message : option string;
  matching_patients : option (list Match.t);
}.
End Result.

(** [sep.join(items)]: every item must be a [str]. *)
Definition str_join (sep : string) (items : list json) : res string :=
  strs ← comprehension
            (λ p, match p with JStr s => Ok s | _ => Raise TypeError end) items;
  Ok (String.concat sep strs).

(** [_STATUS_LABELS.get(code, dflt)]: a list or a dict cannot be hashed. *)
Definition labels_get (code dflt : json) : res json :=
  match code with
  | JStr s => Ok (match _STATUS_LABELS !! s with
                  | Some label => JStr label
                  | None => dflt
                  end)
  | JList _ | JDict _ => Raise TypeError
  | JNull | JBool _ | JInt _ => Ok dflt
  end.

Section WithRepr.
Context `{PyRepr}.

(** The f-string [f"{d.get(k1, '')} {d.get(k2, '')}"] *)
Definition two_names (d : record) (k1 k2 : string) : string :=
  py_str (dict_get_or d k1 (JStr "")) +:+ " " +:+ py_str (dict_get_or d k2 (JStr "")).

(** [_format_appointment] *)
Definition _format_appointment (appt : record) : res Appt.t :=
  let status_code := dict_get_or appt "pc_apptstatus" (JStr "") in
  let provider_parts :=
    [dict_get_or appt "pce_aid_fname" (JStr "");
     dict_get_or appt "pce_aid_lname" (JStr "")] in
  provider ← str_join " " (List.filter py_truthy provider_parts);
  label ← labels_get status_code status_code;
  Ok {| Appt.appointment_id := dict_get appt "pc_eid";
        Appt.patient_name := strip (two_names appt "fname" "lname");
        Appt.patient_id := py_or (dict_get appt "pc_pid") (dict_get appt "pid");
        Appt.provider_name := provider;
        Appt.date := dict_get_or appt "pc_eventDate" (JStr "");
        Appt.start_time := dict_get_or appt "pc_startTime" (JStr "");
        Appt.end_time := dict_get_or appt "pc_endTime" (JStr "");
        Appt.status := status_code;
        Appt.status_label := label;
        Appt.category := dict_get_or appt "pc_title" (JStr "");
        Appt.facility := dict_get_or appt "facility_name" (JStr "");
        Appt.reason := dict_get_or appt "pc_hometext" (JStr "") |}.

(** [_matches_provider] *)
Definition _matches_provider (appt : record) (provider_name : string) : bool :=
  let needle := lower provider_name in
  let haystack := lower (two_names appt "pce_aid_fname" "pce_aid_lname") in
  contains needle haystack.

(** ** Client-side filtering *)

Definition matches_date (date : string) (a : record) : bool :=
  py_eq_str (dict_get a "pc_eventDate") date.

Definition matches_status (status : string) (a : record) : bool :=
  py_eq_str (dict_get a "pc_apptstatus") status.

(** [if crit: filtered = [a for a in filtered if test(a, crit)]] *)
Definition filter_if (crit : option string) (test : string → record → bool)
    (filtered : list record) : list record :=
  match crit with
  | Some c => if opt_truthy crit then List.filter (test c) filtered else filtered
  | None => filtered
  end.

Definition by_date (date : option string) := filter_if date matches_date.
Definition by_status (status : option string) := filter_if status matches_status.
Definition by_provider (provider_name : option string) :=
  filter_if provider_name (λ p a, _matches_provider a p).

(** The block "client-side filtering" of [_find_appointments_impl]. *)
Definition client_side_filtering (date provider_name status : option string)
    (raw_appointments : list record) : list record :=
  by_provider provider_name (by_status status (by_date date raw_appointments)).

(** The tail of [_find_appointments_impl]: format and count. *)
Definition build_result (filtered : list record) : res Result.t :=
  appointments ← comprehension _format_appointment filtered;
  Ok {| Result.appointments := appointments;
        Result.total_count := Z.of_nat (length appointments);
        Result.message :=
          match appointments with
          | [] => Some "No appointments found matching criteria."
          | _ => None
          end;
        Result.matching_patients := None |}.

(** ** The client as the tool sees it

    The tool only calls [client.get(path, params)].  Each call is
    recorded; what it returns (or raises) is decided by the remote side
    as a function of the calls made so far. *)

Record call := {
  path : string;
  params : option record;
}.

Context (remote : list call → call → res json).

Definition client_get (path : string) (params : option record)
  : M (list call) json := λ log,
  let c := {| path := path; params := params |} in
  (remote log c, (log ++ [c])%list).

(** [resp.get("data", resp) if isinstance(resp, dict) else resp] *)
Definition unwrap (resp : json) : json :=
  match resp with
  | JDict d => dict_get_or d "data" resp
  | _ => resp
  end.

(** [x if isinstance(x, list) else []] *)
Definition as_list (x : json) : list record :=
  match x with
  | JList l => l
  | _ => []
  end.

(** [_search_patients] *)
Definition _search_patients (name : string) : M (list call) (list record) :=
  resp ← client_get "/apis/default/api/patient" (Some {[ "lname" := JStr name ]});
  let patients := unwrap resp in
  patients ←
    (if negb (py_truthy patients) then
       resp ← client_get "/apis/default/api/patient" (Some {[ "fname" := JStr name ]});
       mret (unwrap resp)
     else mret patients);
  mret (as_list patients).

(** [_fetch_appointments_for_patient] *)
Definition _fetch_appointments_for_patient (pid : json) : M (list call) (list record) :=
  resp ← client_get ("/apis/default/api/patient/" +:+ py_str pid +:+ "/appointment") None;
  mret (as_list (unwrap resp)).

(** [_fetch_all_appointments] *)
Definition _fetch_all_appointments : M (list call) (list record) :=
  resp ← client_get "/apis/default/api/appointment" None;
  mret (as_list (unwrap resp)).

(** [for pid in resolved_pids: raw_appointments.extend(await ...)] *)
Fixpoint extend_each (raw_appointments : list record) (resolved_pids : list json)
  : M (list call) (list record) :=
  match resolved_pids with
  | [] => mret raw_appointments
  | pid :: rest =>
      more ← _fetch_appointments_for_patient pid;
      extend_each (raw_appointments ++ more) rest
  end.

(** The block "fetch appointments". *)
Definition fetch_appointments (resolved_pids : list json) : M (list call) (list record) :=
  match resolved_pids with
  | [] => _fetch_all_appointments
  | _ => extend_each [] resolved_pids
  end.

(** Everything below the resolution block. *)
Definition fetch_filter_format (resolved_pids : list json)
    (date provider_name status : option string) : M (list call) Result.t :=
  raw_appointments ← fetch_appointments resolved_pids;
  lift (build_result (client_side_filtering date provider_name status raw_appointments)).

(** One entry of the disambiguation list. *)
Definition match_entry (p : record) : Match.t :=
  {| Match.patient_id := dict_get p "pid";
     Match.name := strip (two_names p "fname" "lname");
     Match.DOB := dict_get_or p "DOB" (JStr "") |}.

(** [[p["pid"] for p in patients if p.get("pid")]]; under the guard the
    subscript cannot raise and is [p.get("pid")]. *)
Definition pids_of (patients : list record) : list json :=
  List.map (λ p, dict_get p "pid")
           (List.filter (λ p, py_truthy (dict_get p "pid")) patients).

Definition no_patients_result (patient_name : string) : Result.t :=
  {| Result.appointments := [];
     Result.total_count := 0;
     Result.message := Some ("No patients found matching '" +:+ patient_name +:+ "'.");
     Result.matching_patients := None |}.

Definition clarify_result (patient_name : string) (patients : list record) : Result.t :=
  {| Result.appointments := [];
     Result.total_count := 0;
     Result.message :=
       Some ("Multiple patients match '" +:+ patient_name
             +:+ "'. Please clarify which patient.");
     Result.matching_patients := Some (List.map match_entry (take 10 patients)) |}.

(** [_find_appointments_impl] *)
Definition _find_appointments_impl
    (patient_name date provider_name status : option string)
    (patient_id : option Z) : M (list call) Result.t :=
  match patient_id with
  | Some id => fetch_filter_format [JInt id] date provider_name status
  | None =>
      match patient_name with
      | Some name =>
          if opt_truthy patient_name then
            patients ← _search_patients name;
            match patients with
            | [] => mret (no_patients_result name)
            | _ =>
                if Nat.ltb 5 (length patients) then
                  mret (clarify_result name patients)
                else
                  fetch_filter_format (pids_of patients) date provider_name status
            end
          else fetch_filter_format [] date provider_name status
      | None => fetch_filter_format [] date provider_name status
      end
  end.

End WithRepr.

(** ** Vocabulary of the statements *)

(** A record passes a criterion that is not given. *)
Definition satisfies (crit : option string) (test : string → record → bool)
    (a : record) : bool :=
  match crit with
  | Some c => test c a
  | None => true
  end.



(** A name field that [" ".join] accepts: dropped as falsy, or a string. *)
Definition blank_or_str (v : json) : Prop :=
  py_truthy v = false ∨ ∃ s, v = JStr s.

(** A value that can be a dict key. *)
Definition hashable (v : json) : Prop :=
  match v with
  | JList _ | JDict _ => False
  | _ => True
  end.

(** The text of a name field as the provider name uses it. *)
Definition text_of (v : json) : string :=
  match v with
  | JStr s => s
  | _ => ""
  end.

Definition join_names (first last : string) : string :=
  match first, last with
  | "", _ => last
  | _, "" => first
  | _, _ => first +:+ " " +:+ last
  end.

(** The call [_fetch_appointments_for_patient] makes for [pid]. *)
Definition fetch_call `{PyRepr} (pid : json) : call :=
  {| path := "/apis/default/api/patient/" +:+ py_str pid +:+ "/appointment";
     params := None |}.

(** The call [_fetch_all_appointments] makes. *)
Definition fetch_all_call : call :=
  {| path := "/apis/default/api/appointment"; params := None |}.

(** The call [_search_patients] makes on one name field. *)
Definition search_call (field name : string) : call :=
  {| path := "/apis/default/api/patient"; params := Some {[ field := JStr name ]} |}.

(** What the tool returns when nothing is left after filtering. *)
Definition empty_result : Result.t :=
  {| Result.appointments := [];
     Result.total_count := 0;
     Result.message := Some "No appointments found matching criteria.";
     Result.matching_patients := None |}.

End Tool.

(* ===================================================================== *)
(** * Fixtures: the worlds of the test suite                              *)
(* ===================================================================== *)

Module Fixtures.
Import Client Tool.

(** Containers print as a fixed word in the examples. *)
Definition opaque_repr : PyRepr := λ _, "<container>".

(** ** [tests/test_openemr_client.py] *)

Definition TOKEN_RESPONSE : response :=
  {| status_code := 200;
     text := "(token payload)";
     decoded := Some (JDict {[ "access_token" := JStr "test-token-abc";
                               "token_type" := JStr "Bearer";
                               "expires_in" := JInt 3600;
                               "scope" := JStr DEFAULT_SCOPES ]}) |}.

Definition no_data : response :=
  {| status_code := 200; text := "(no data)";
     decoded := Some (JDict {[ "data" := JList [] ]}) |}.

Definition unauthorized : response :=
  {| status_code := 401; text := "expired"; decoded := None |}.

Definition invalid_grant : response :=
  {| status_code := 400; text := "invalid_grant"; decoded := None |}.

Definition test_client : OpenEMRClient :=
  init "http://openemr:80" "test-client-id" "test-secret" "admin" "pass" DEFAULT_SCOPES.

(** A client holding a token that the clock still accepts. *)
Definition cached_client : OpenEMRClient :=
  set_expiry (set_token test_client (JStr "stale-token")) 3600.

Definition start (c : OpenEMRClient) : session :=
  {| self := c; sent := []; clock_reads := 0 |}.

Definition frozen_clock : nat → Z := λ _, 0.

Definition is_token_request (r : request) : bool :=
  String.eqb (req_path r) "/oauth2/default/token".

Definition bears (tok : string) (r : request) : bool :=
  match req_headers r with
  | [(_, v)] => String.eqb v ("Bearer " +:+ tok)
  | _ => false
  end.

(** Grants tokens and serves every request. *)
Definition granting : list request → request → res response :=
  λ _ r, Ok (if is_token_request r then TOKEN_RESPONSE else no_data).

(** Grants tokens; turns away the stale one. *)
Definition expiring : list request → request → res response :=
  λ _ r, Ok (if is_token_request r then TOKEN_RESPONSE
             else if bears "stale-token" r then unauthorized else no_data).

(** Grants tokens and accepts none of them. *)
Definition locked_out : list request → request → res response :=
  λ _ r, Ok (if is_token_request r then TOKEN_RESPONSE else unauthorized).

(** Accepts no token and grants none. *)
Definition rejecting : list request → request → res response :=
  λ _ r, Ok (if is_token_request r then invalid_grant else unauthorized).

Definition patient_path : string := "/apis/default/api/patient".

(** ** [tests/test_find_appointments.py] *)

(** [_make_appointment]: the base record with some keys overridden. *)
Definition _make_appointment (overrides : record) : record :=
  overrides ∪
  list_to_map
    [("pc_eid", JInt 1);
     ("fname", JStr "John");
     ("lname", JStr "Doe");
     ("pc_pid", JInt 10);
     ("pid", JInt 10);
     ("pce_aid_fname", JStr "Dr");
     ("pce_aid_lname", JStr "Smith");
     ("pc_eventDate", JStr "2026-03-01");
     ("pc_startTime", JStr "09:00:00");
     ("pc_endTime", JStr "09:30:00");
     ("pc_apptstatus", JStr "@");
     ("pc_title", JStr "Office Visit");
     ("facility_name", JStr "Main Clinic");
     ("pc_hometext", JStr "Follow-up")].

(** [_make_patient] *)
Definition _make_patient (overrides : record) : record :=
  overrides ∪
  {[ "pid" := JInt 10; "fname" := JStr "John"; "lname" := JStr "Doe";
     "DOB" := JStr "1980-01-15" ]}.

Definition envelope (data : list record) : res json :=
  Ok (JDict {[ "data" := JList data ]}).

(** [_mock_client(patients, appointments, patient_appointments)] *)
Definition _mock_client (patients appointments : list record)
    (patient_appointments : list (Z * list record)) : list call → call → res json :=
  λ _ c,
    let p := path c in
    if (contains "/api/patient" p && contains "/appointment" p)%bool then
      envelope
        (default []
           (snd <$> List.find
              (λ entry, String.eqb p ("/apis/default/api/patient/"
                                      +:+ pretty (fst entry) +:+ "/appointment"))
              patient_appointments))
    else if contains "/api/patient" p then envelope patients
    else if contains "/api/appointment" p then envelope appointments
    else envelope [].

(** The patients [P1 .. Pn]. *)
Definition numbered_patient (i : nat) : record :=
  _make_patient {[ "pid" := JInt (Z.of_nat i); "fname" := JStr ("P" +:+ pretty i) ]}.

Definition crowd (n : nat) : list record := List.map numbered_patient (seq 1 n).

(** A patient record that carries no identifier. *)
Definition nameless : record := {[ "fname" := JStr "John"; "lname" := JStr "Doe" ]}.

(** An appointment of somebody else. *)
Definition janes_visit : record :=
  _make_appointment {[ "fname" := JStr "Jane"; "lname" := JStr "Roe";
                       "pc_pid" := JInt 77; "pid" := JInt 77 ]}.

(** The three appointments of [test_combined_filters]. *)
Definition three_visits : list record :=
  [_make_appointment {[ "pc_eid" := JInt 1; "pc_eventDate" := JStr "2026-03-01";
                        "pc_apptstatus" := JStr "@" ]};
   _make_appointment {[ "pc_eid" := JInt 2; "pc_eventDate" := JStr "2026-03-01";
                        "pc_apptstatus" := JStr "-" ]};
   _make_appointment {[ "pc_eid" := JInt 3; "pc_eventDate" := JStr "2026-03-02";
                        "pc_apptstatus" := JStr "@" ]}].

End Fixtures.

(* ===================================================================== *)
(** * The rest of the two modules and their callers                       *)
(* ===================================================================== *)

(** ** Traces of the calls a search makes *)

Module Trace.
Import Tool.

(** Every call of [new], made in this order after [log], was answered. *)
Fixpoint answered (remote : list call → call → res json)
    (log new : list call) : Prop :=
  match new with
  | [] => True
  | c :: rest => (∃ j, remote log c = Ok j) ∧ answered remote (log ++ [c])%list rest
  end.

(** How a run that made the calls [new] ended: every call was answered, or
    the last one raised and that exception is the outcome. *)
Definition traced {A} (remote : list call → call → res json)
    (log : list call) (r : res A) (new : list call) : Prop :=
  answered remote log new
  ∨ ∃ before c e,
      new = (before ++ [c])%list
      ∧ answered remote log before
      ∧ remote (log ++ before)%list c = Raise e
      ∧ r = Raise e.

Definition tracking {A} (remote : list call → call → res json)
    (m : M (list call) A) : Prop :=
  ∀ log, ∃ new, (m log).2 = (log ++ new)%list ∧ traced remote log (m log).1 new.

(** A run of [m] makes at most [n] calls. *)
Definition within {A} (n : nat) (m : M (list call) A) : Prop :=
  ∀ log, ∃ new, (m log).2 = (log ++ new)%list ∧ (length new ≤ n)%nat.

(** The first call [_find_appointments_impl] makes. *)
Definition first_call `{PyRepr} (patient_name : option string)
    (patient_id : option Z) : call :=
  match patient_id with
  | Some id => fetch_call (JInt id)
  | None =>
      match patient_name with
      | Some name =>
          if opt_truthy patient_name then search_call "lname" name else fetch_all_call
      | None => fetch_all_call
      end
  end.

(** Whatever happens, a run of [m] begins with the call [c]. *)
Definition opens {A} (c : call) (m : M (list call) A) : Prop :=
  ∀ log, ∃ rest, (m log).2 = (log ++ c :: rest)%list.

(** [k] slashes *)
Fixpoint slashes (k : nat) : string :=
  match k with
  | O => ""
  | S k' => String "/" (slashes k')
  end.
End Trace.

(** ** [OpenEMRClient.register_client] *)

Module Registration.
Import Client.

(** The body of the registration request. *)
Record registration := {
  application_type : string;
  client_name : string;
  redirect_uris : list string;
  scope : string;
}.

(** The request of the one-off [httpx.AsyncClient]: no credential goes
    with it. *)
Record registration_request := {
  reg_base_url : string;
  reg_path : string;
  reg_json : registration;
}.

(** How [register_client] ends.  [AttributeError] is what
    [result.get("client_id")] raises, in the log call, when the decoded
    body is not an object. *)
Inductive registered :=
  | Registered (result : record)
  | RegistrationRaised (e : exn)
  | AttributeError.

Definition registration_error_message (status : Z) (body : string) : string :=
  "Client registration failed (" +:+ pretty status +:+ "): " +:+ body.

(** [redirect_uris or ["https://localhost"]] *)
Definition uris_or_default (redirect_uris : option (list string)) : list string :=
  match redirect_uris with
  | Some (u :: us) => u :: us
  | Some [] | None => ["https://localhost"]
  end.

(** [OpenEMRClient.register_client]; the registrar answers the
    request or the exchange raises. *)
Definition register_client (registrar : registration_request → res response)
    (base_url client_name : string) (redirect_uris : option (list string))
    (scopes : string) : registered :=
  let payload :=
    {| application_type := "private";
       client_name := client_name;
       redirect_uris := uris_or_default redirect_uris;
       scope := scopes |} in
  match registrar {| reg_base_url := rstrip_slash base_url;
                     reg_path := "/oauth2/default/registration";
                     reg_json := payload |} with
  | Raise e => RegistrationRaised e
  | Ok resp =>
      if negb (Z.eqb (status_code resp) 200 || Z.eqb (status_code resp) 201) then
        RegistrationRaised
          (OpenEMRAuthError (registration_error_message (status_code resp) (text resp)))
      else
        match json_of resp with
        | Raise e => RegistrationRaised e
        | Ok (JDict result) => Registered result
        | Ok _ => AttributeError
        end
  end.

End Registration.

(** ** [agent.py]: the routing function *)

Module Agent.

(** A message of the conversation; [tool_calls] is [None] when the
    message has no such attribute. *)
Record message := {
  content : string;
  tool_calls : option (list record);
}.

Definition END : string := "__end__".

(** [route], on [state["messages"]]; [None] is the [IndexError] of
    [messages[-1]] on an empty list. *)
Definition route (messages : list message) : option string :=
  match last messages with
  | None => None
  | Some m =>
      match tool_calls m with
      | Some (_ :: _) => Some "tools"
      | Some [] | None => Some END
      end
  end.

End Agent.

(** ** [find_appointments], the tool as the agent calls it *)

Module Exposed.
Import Client Tool Trace.

(** The fields of [config.Settings] that the tool reads. *)
Record Settings := {
  openemr_base_url : string;
  openemr_client_id : string;
  openemr_client_secret : string;
  openemr_username : string;
  openemr_password : string;
}.

(** How a call of the tool ends: with its dict, with the [ToolException]
    of one of the two [except] clauses, or with an exception that neither
    clause catches. *)
Inductive outcome :=
  | Returned (r : Result.t)
  | ToolException (msg : string)
  | Propagated (e : exn).

Section Live.
Context `{PyRepr}.
Context (server : list request → request → res response).
Context (clock : nat → Z).
(** [str(exc)] of the [httpx.TimeoutException], which is not modelled. *)
Context (timeout_text : string).

(** The session the client is in after the calls of [log]. *)
Definition session_after (s0 : session) (log : list call) : session :=
  foldl (λ s c, (get server clock (path c) (params c) s).2) s0 log.

(** [client.get] of the real client, as the tool sees it: the answer to a
    call after the calls of [log]. *)
Definition live_get (s0 : session) : list call → call → res json :=
  λ log c, (get server clock (path c) (params c) (session_after s0 log)).1.

(** The two [except] clauses of [find_appointments]. *)
Definition tool_error (e : exn) : outcome :=
  match e with
  | TimeoutException =>
      ToolException ("OpenEMR API timed out: " +:+ timeout_text +:+ ". Please try again.")
  | HTTPStatusError resp =>
      ToolException ("OpenEMR API error (" +:+ pretty (status_code resp) +:+ "): "
                     +:+ text resp)
  | _ => Propagated e
  end.

(** [find_appointments]: the client is built from the settings and used
    for this one search; [sent0] and [reads0] are what the world has seen
    before. *)
Definition find_appointments (settings : Settings)
    (patient_name date provider_name status : option string)
    (patient_id : option Z) (sent0 : list request) (reads0 : nat)
  : outcome * session :=
  let client := init (openemr_base_url settings) (openemr_client_id settings)
                  (openemr_client_secret settings) (openemr_username settings)
                  (openemr_password settings) DEFAULT_SCOPES in
  let s0 := {| self := client; sent := sent0; clock_reads := reads0 |} in
  let run := _find_appointments_impl (live_get s0)
               patient_name date provider_name status patient_id [] in
  (match run.1 with
   | Ok r => Returned r
   | Raise e => tool_error e
   end, session_after s0 run.2).

End Live.
End Exposed.

(** ** More worlds for the examples *)

Module Worlds.
Import Client Tool Fixtures Registration Exposed.

(** The object a response decodes to. *)
Definition body_of (resp : response) : record :=
  match decoded resp with
  | Some (JDict d) => d
  | _ => ∅
  end.

(** A grant whose lifetime is not a number. *)
Definition odd_lifetime : response :=
  {| status_code := 200; text := "(odd lifetime)";
     decoded := Some (JDict {[ "access_token" := JStr "fresh-token";
                               "expires_in" := JStr "soon" ]}) |}.

(** A grant without a token. *)
Definition no_token : response :=
  {| status_code := 200; text := "(no token)";
     decoded := Some (JDict {[ "token_type" := JStr "Bearer" ]}) |}.



Definition sloppy : list request → request → res response :=
  λ _ r, Ok (if is_token_request r then odd_lifetime else no_data).

Definition forgetful : list request → request → res response :=
  λ _ r, Ok (if is_token_request r then no_token else no_data).

(** No exchange completes. *)
Definition timing_out : list request → request → res response :=
  λ _ _, Raise TimeoutException.



(** The defaults of [config.Settings]. *)
Definition default_settings : Settings :=
  {| openemr_base_url := "http://openemr:80";
     openemr_client_id := "";
     openemr_client_secret := "";
     openemr_username := "admin";
     openemr_password := "pass" |}.

Definition created : response :=
  {| status_code := 201; text := "(registered)";
     decoded := Some (JDict {[ "client_id" := JStr "new-client";
                               "client_secret" := JStr "new-secret" ]}) |}.

Definition forbidden : response :=
  {| status_code := 403; text := "registration is off"; decoded := None |}.

Definition registering : registration_request → res response := λ _, Ok created.

Definition refusing : registration_request → res response := λ _, Ok forbidden.

(** Two patients with their appointments. *)
Definition two_patients : list call → call → res json :=
  _mock_client [] [] [(10, three_visits); (77, [janes_visit])].


End Worlds.

(* ===================================================================== *)
(** * The token life cycle and the 401 retry                              *)
(* ===================================================================== *)

Module ClientFacts.
Import Client Fixtures.

Section Facts.
Context `{PyRepr}.
Context (server : list request → request → res response).
Context (clock : nat → Z).

Local Abbreviation authenticate := (authenticate server clock).
Local Abbreviation _token_is_valid := (_token_is_valid clock).
Local Abbreviation _ensure_token := (_ensure_token server clock).
Local Abbreviation call := (call server clock).

(** [authenticate], step by step. *)
Lemma authenticate_unfold s :
  authenticate s =
  let s1 := sending s (token_request (self s)) in
  match server (sent s) (token_request (self s)) with
  | Raise e => (Raise e, s1)
  | Ok resp =>
      if negb (Z.eqb (status_code resp) 200) then
        (Raise (OpenEMRAuthError (auth_error_message (status_code resp) (text resp))), s1)
      else
        match json_of resp with
        | Raise e => (Raise e, s1)
        | Ok payload =>
            match subscript payload "access_token" with
            | Raise e => (Raise e, s1)
            | Ok tok =>
                let s2 := {| self := set_token (self s) tok; sent := sent s1;
                             clock_reads := clock_reads s |} in
                match payload_get payload "expires_in" (JInt 3600) ≫= py_int with
                | Raise e => (Raise e, s2)
                | Ok expires_in =>
                    (Ok (),
                     {| self := set_expiry (set_token (self s) tok)
                                  (clock (clock_reads s) + expires_in);
                        sent := sent s1;
                        clock_reads := S (clock_reads s) |})
                end
            end
        end
  end.
Proof.
  unfold Client.authenticate, mbind, M_bind, get_self, send, lift, raise, sending;
    cbn -[token_request].
  destruct (server _ _) as [resp|e]; [|done].
  destruct (negb _); [done|].
  destruct (json_of resp) as [payload|e]; [|done].
  destruct (subscript _ _) as [tok|e]; [|done].
  cbn. destruct (payload_get _ _ _) as [dflt|e]; [|done].
  cbn. destruct (py_int dflt) as [z|e]; done.
Qed.

(** Whatever its outcome, [authenticate] sends the token request and
    nothing else. *)
Lemma authenticate_sent s :
  sent (authenticate s).2 = (sent s ++ [token_request (self s)])%list.
Proof.
  rewrite authenticate_unfold. cbv zeta.
  repeat (case_match; try reflexivity).
Qed.

(** A successful exchange stores the token of the payload. *)
Lemma authenticate_ok s s' :
  authenticate s = (Ok (), s') →
  ∃ resp payload tok,
    server (sent s) (token_request (self s)) = Ok resp ∧
    status_code resp = 200 ∧
    json_of resp = Ok payload ∧
    subscript payload "access_token" = Ok tok ∧
    _access_token (self s') = tok.
Proof.
  rewrite authenticate_unfold. cbv zeta. intros Hrun.
  destruct (server _ _) as [resp|e] eqn:Hsrv; [|done].
  destruct (Z.eqb_spec (status_code resp) 200) as [Hst|]; [|done].
  cbn [negb] in Hrun.
  destruct (json_of resp) as [payload|e] eqn:Hjson; [|done].
  destruct (subscript _ _) as [tok|e] eqn:Hsub; [|done].
  destruct (_ ≫= _); [|done].
  injection Hrun as <-. by exists resp, payload, tok.
Qed.

Lemma token_is_valid_unfold s :
  _token_is_valid s =
  match _access_token (self s) with
  | JNull => (Ok false, s)
  | _ => (Ok (clock (clock_reads s) <? _token_expiry (self s) - _TOKEN_REFRESH_MARGIN_SECS),
          tick s)
  end.
Proof.
  unfold Client._token_is_valid, mbind, M_bind, get_self. cbn.
  by destruct (_access_token (self s)).
Qed.

Lemma ensure_token_unfold s :
  _ensure_token s =
  match _access_token (self s) with
  | JNull => authenticate s
  | _ =>
      if clock (clock_reads s) <? _token_expiry (self s) - _TOKEN_REFRESH_MARGIN_SECS
      then (Ok (), tick s)
      else authenticate (tick s)
  end.
Proof.
  unfold Client._ensure_token. unfold mbind at 1, M_bind at 1.
  fold _token_is_valid. rewrite token_is_valid_unfold.
  destruct (_access_token (self s)); try done; by destruct (_ <? _).
Qed.

Lemma ensure_token_fresh s :
  _access_token (self s) ≠ JNull →
  _TOKEN_REFRESH_MARGIN_SECS < _token_expiry (self s) - clock (clock_reads s) →
  _ensure_token s = (Ok (), tick s).
Proof.
  intros Htok Hlife. rewrite ensure_token_unfold.
  assert ((clock (clock_reads s) <? _token_expiry (self s) - _TOKEN_REFRESH_MARGIN_SECS) = true)
    as Hlt by (apply Z.ltb_lt; lia).
  destruct (_access_token (self s)); try done; by rewrite Hlt.
Qed.

Lemma ensure_token_stale s :
  _access_token (self s) = JNull ∨
  _token_expiry (self s) - clock (clock_reads s) ≤ _TOKEN_REFRESH_MARGIN_SECS →
  ∃ s0, (s0 = s ∨ s0 = tick s) ∧ _ensure_token s = authenticate s0.
Proof.
  intros Hstale. rewrite ensure_token_unfold.
  destruct (_access_token (self s)) eqn:Htok;
    [ exists s; auto | destruct Hstale as [|Hlife]; [done|] .. ];
    (assert ((clock (clock_reads s) <? _token_expiry (self s) - _TOKEN_REFRESH_MARGIN_SECS) = false)
       as Hlt by (apply Z.ltb_ge; lia));
    exists (tick s); rewrite Hlt; auto.
Qed.

(** [_ensure_token] sends nothing or the token request alone. *)
Lemma ensure_token_sent s :
  sent (_ensure_token s).2 = sent s
  ∨ sent (_ensure_token s).2 = (sent s ++ [token_request (self s)])%list.
Proof.
  rewrite ensure_token_unfold.
  destruct (_access_token (self s));
    try destruct (_ <? _); auto;
    right; first [ apply (authenticate_sent s) | apply (authenticate_sent (tick s)) ].
Qed.

Lemma call_unfold m path arg s :
  call m path arg s =
  match _ensure_token s with
  | (Raise e, s1) => (Raise e, s1)
  | (Ok _, s1) =>
      let req1 := api_request m path arg (_auth_headers (self s1)) in
      let finish (resp : response) :=
        if is_success (status_code resp) then json_of resp
        else Raise (HTTPStatusError resp) in
      match server (sent s1) req1 with
      | Raise e => (Raise e, sending s1 req1)
      | Ok resp1 =>
          if Z.eqb (status_code resp1) 401 then
            match authenticate (sending s1 req1) with
            | (Raise e, s2) => (Raise e, s2)
            | (Ok _, s2) =>
                let req2 := api_request m path arg (_auth_headers (self s2)) in
                (match server (sent s2) req2 with
                 | Raise e => Raise e
                 | Ok resp2 => finish resp2
                 end, sending s2 req2)
            end
          else (finish resp1, sending s1 req1)
      end
  end.
Proof.
  unfold Client.call. unfold mbind at 1, M_bind at 1.
  destruct (_ensure_token s) as [[[]|e] s1]; [|done].
  unfold mbind, M_bind, get_self, send, lift, raise_for_status. cbn.
  destruct (server (sent s1) _) as [resp1|e]; [|done].
  destruct (Z.eqb (status_code resp1) 401).
  - destruct (authenticate _) as [[[]|e] s2]; [|done].
    cbn. destruct (server (sent s2) _) as [resp2|e]; [|done].
    destruct (is_success (status_code resp2)); reflexivity.
  - unfold mret, M_ret. cbn.
    destruct (is_success (status_code resp1)); reflexivity.
Qed.

(** C4: a cached credential whose remaining lifetime exceeds the refresh
    margin of 60 seconds is kept and nothing is sent; a credential that is
    absent, or whose remaining lifetime is at most the margin, makes
    [_ensure_token] send exactly one token request; and when a second
    [_ensure_token] follows a first one while the credential is still
    outside the margin, the two calls together send at most one token
    request. *)
Theorem ensure_token_refresh_margin (s : session) :
  let c := self s in
  let now := clock (clock_reads s) in
  (_access_token c ≠ JNull →
   _TOKEN_REFRESH_MARGIN_SECS < _token_expiry c - now →
   _ensure_token s = (Ok (), tick s))
  ∧ (_access_token c = JNull ∨ _token_expiry c - now ≤ _TOKEN_REFRESH_MARGIN_SECS →
     sent (_ensure_token s).2 = (sent s ++ [token_request c])%list)
  ∧ (∀ s1,
       _ensure_token s = (Ok (), s1) →
       _access_token (self s1) ≠ JNull →
       _TOKEN_REFRESH_MARGIN_SECS < _token_expiry (self s1) - clock (clock_reads s1) →
       ∃ s2, _ensure_token s1 = (Ok (), s2) ∧ self s2 = self s1 ∧
             (sent s2 = sent s ∨ sent s2 = (sent s ++ [token_request c])%list)).
Proof.
  cbv zeta. split; [apply ensure_token_fresh|]. split.
  - intros Hstale. destruct (ensure_token_stale s Hstale) as (s0 & Hs0 & ->).
    rewrite authenticate_sent. by destruct Hs0 as [->| ->].
  - intros s1 Hfirst Htok1 Hlife1.
    exists (tick s1). split; [by apply ensure_token_fresh|]. split; [done|].
    cbn [tick sent].
    destruct (ensure_token_sent s) as [Hs|Hs]; rewrite Hfirst in Hs; auto.
Qed.

(** C5 (as the code has it): when the token endpoint answers with a status
    other than 200, [authenticate] raises [OpenEMRAuthError] with a message
    that spells out the status and the body, and it leaves the client
    untouched: the cached token and its expiry are what they were, so a
    validity check made afterwards answers what it would have answered
    before. *)
Theorem authenticate_failure_keeps_credential (s : session) (resp : response) :
  server (sent s) (token_request (self s)) = Ok resp →
  status_code resp ≠ 200 →
  let s' := sending s (token_request (self s)) in
  authenticate s =
    (Raise (OpenEMRAuthError
              ("Token request failed (" +:+ pretty (status_code resp) +:+ "): "
               +:+ text resp)), s')
  ∧ self s' = self s
  ∧ (_token_is_valid s').1 = (_token_is_valid s).1.
Proof.
  intros Hsrv Hst. cbv zeta. split; [|split; [done|]].
  - rewrite authenticate_unfold, Hsrv. cbv zeta.
    destruct (Z.eqb_spec (status_code resp) 200); done.
  - rewrite !token_is_valid_unfold. cbn [sending self clock_reads].
    by destruct (_access_token (self s)).
Qed.

(** C2 (as the code has it): when the first answer to a GET or a POST is
    a 401, exactly one token request follows.  If that exchange fails, its
    error is the outcome of the call and the request is not sent again.
    If it succeeds, the same request is sent once more, now with the token
    of the exchange in its header; an answer outside 200..299 (a second
    401 included) raises [HTTPStatusError] carrying that answer, and in no
    case is a further request sent. *)
Theorem retry_once_on_401 (m : method) (path : string) (arg : option record)
    (s s1 : session) (resp1 : response) :
  _ensure_token s = (Ok (), s1) →
  let req1 := api_request m path arg (_auth_headers (self s1)) in
  let reauth := token_request (self s1) in
  server (sent s1) req1 = Ok resp1 →
  status_code resp1 = 401 →
  (∀ e s2,
     authenticate (sending s1 req1) = (Raise e, s2) →
     call m path arg s = (Raise e, s2)
     ∧ sent s2 = (sent s1 ++ [req1; reauth])%list)
  ∧ (∀ s2,
       authenticate (sending s1 req1) = (Ok (), s2) →
       let req2 := api_request m path arg (_auth_headers (self s2)) in
       (∃ granted payload,
           server (sent s1 ++ [req1]) reauth = Ok granted
           ∧ json_of granted = Ok payload
           ∧ subscript payload "access_token" = Ok (_access_token (self s2)))
       ∧ call m path arg s =
           (match server (sent s2) req2 with
            | Raise e => Raise e
            | Ok resp2 =>
                if is_success (status_code resp2) then json_of resp2
                else Raise (HTTPStatusError resp2)
            end, sending s2 req2)
       ∧ sent (sending s2 req2) = (sent s1 ++ [req1; reauth; req2])%list).
Proof.
  intros Hensure req1 reauth Hsrv H401.
  pose proof (authenticate_sent (sending s1 req1)) as Hsent.
  pose proof (call_unfold m path arg s) as Hcall.
  rewrite Hensure in Hcall. cbv zeta in Hcall. fold req1 in Hcall.
  rewrite Hsrv, H401 in Hcall. cbn [Z.eqb Pos.eqb] in Hcall.
  cbn [sending sent self] in Hsent. rewrite <- app_assoc in Hsent.
  split.
  - intros e s2 Hauth. rewrite Hauth in Hcall, Hsent. done.
  - intros s2 Hauth. rewrite Hauth in Hcall, Hsent. cbn [snd] in Hsent.
    split; [|split; [done|]].
    + destruct (authenticate_ok _ _ Hauth) as (granted & payload & tok & ? & _ & ? & ? & <-).
      by exists granted, payload.
    + cbn [sending sent]. rewrite Hsent. by rewrite <- !app_assoc.
Qed.

End Facts.

(** ** The theorems at work on the fixtures *)

#[local] Existing Instance opaque_repr.

Lemma ensure_token_refresh_margin_witness :
  _ensure_token granting frozen_clock (start cached_client)
    = (Ok (), tick (start cached_client))
  ∧ sent (_ensure_token granting frozen_clock (start test_client)).2
    = [token_request test_client]
  ∧ ∃ s1 s2,
      _ensure_token granting frozen_clock (start test_client) = (Ok (), s1)
      ∧ _ensure_token granting frozen_clock s1 = (Ok (), s2)
      ∧ sent s2 = [token_request test_client].
Proof.
  destruct (ensure_token_refresh_margin granting frozen_clock (start cached_client))
    as (Hfresh & _ & _).
  destruct (ensure_token_refresh_margin granting frozen_clock (start test_client))
    as (_ & Hstale & Htwice).
  split; [apply Hfresh; [discriminate | vm_compute; reflexivity]|].
  split; [apply Hstale; left; reflexivity|].
  destruct (_ensure_token granting frozen_clock (start test_client)) as [r s1] eqn:Hfirst.
  vm_compute in Hfirst. injection Hfirst as <- <-.
  edestruct Htwice as (s2 & Hsecond & _ & [Hsent|Hsent]);
    [reflexivity | discriminate | vm_compute; reflexivity | ..].
  - exfalso. vm_compute in Hsecond. injection Hsecond as <-. discriminate Hsent.
  - eexists _, s2. split; [reflexivity|]. split; [exact Hsecond|exact Hsent].
Defined.

Lemma authenticate_failure_keeps_credential_witness :
  let s := start cached_client in
  let s' := sending s (token_request cached_client) in
  rejecting [] (token_request cached_client) = Ok invalid_grant
  ∧ status_code invalid_grant ≠ 200
  ∧ authenticate rejecting frozen_clock s
    = (Raise (OpenEMRAuthError "Token request failed (400): invalid_grant"), s')
  ∧ self s' = cached_client
  ∧ (_token_is_valid frozen_clock s').1 = (_token_is_valid frozen_clock s).1.
Proof.
  cbv zeta. split; [reflexivity|]. split; [discriminate|].
  apply (authenticate_failure_keeps_credential rejecting frozen_clock
           (start cached_client) invalid_grant); [reflexivity | discriminate].
Defined.

(** C5, as stated, fails: the token endpoint answers 400 to a client that
    holds a token within its lifetime; [authenticate] raises, the token is
    still cached, and the validity check that follows answers [True]. *)
Lemma authenticate_failure_clears_credential_counterexample :
  let out := authenticate rejecting frozen_clock (start cached_client) in
  out.1 = Raise (OpenEMRAuthError "Token request failed (400): invalid_grant")
  ∧ _access_token (self out.2) = JStr "stale-token"
  ∧ _access_token (self out.2) ≠ JNull
  ∧ (_token_is_valid frozen_clock out.2).1 = Ok true.
Proof. vm_compute. repeat split. discriminate. Qed.

Lemma retry_once_on_401_witness :
  let get srv :=
    call (H := opaque_repr) srv frozen_clock GET patient_path None (start cached_client) in
  let stale := api_request GET patient_path None [("Authorization", "Bearer stale-token")] in
  let fresh := api_request GET patient_path None [("Authorization", "Bearer test-token-abc")] in
  (get expiring).1 = Ok (JDict {[ "data" := JList [] ]})
  ∧ sent (get expiring).2 = [stale; token_request cached_client; fresh]
  ∧ (get locked_out).1 = Raise (HTTPStatusError unauthorized)
  ∧ sent (get locked_out).2 = [stale; token_request cached_client; fresh].
Proof.
  cbv zeta.
  pose (s1 := tick (start cached_client)).
  pose (stale := api_request GET patient_path None (_auth_headers (H := opaque_repr) (self s1))).
  destruct (authenticate expiring frozen_clock (sending s1 stale)) as [r s2] eqn:Hauth.
  assert (Hauth' := Hauth). vm_compute in Hauth'. injection Hauth' as <- <-.
  destruct (retry_once_on_401 (H := opaque_repr) expiring frozen_clock GET patient_path None
              (start cached_client) s1 unauthorized)
    as [_ Hretry]; [reflexivity | reflexivity | reflexivity |].
  destruct (Hretry _ Hauth) as (_ & Hcall & Hsent).
  destruct (authenticate locked_out frozen_clock (sending s1 stale)) as [r' s2'] eqn:Hauth'.
  assert (Hauth'' := Hauth'). vm_compute in Hauth''. injection Hauth'' as <- <-.
  destruct (retry_once_on_401 (H := opaque_repr) locked_out frozen_clock GET patient_path None
              (start cached_client) s1 unauthorized)
    as [_ Hretry']; [reflexivity | reflexivity | reflexivity |].
  destruct (Hretry' _ Hauth') as (_ & Hcall' & Hsent').
  rewrite Hcall, Hcall'. vm_compute. repeat split.
Defined.

(** C2, as stated, fails: the first answer is a 401 and the token endpoint
    then refuses the exchange; the call ends in [OpenEMRAuthError] and the
    request was sent once, never again. *)
Lemma retry_after_401_counterexample :
  let s := start cached_client in
  let req1 := api_request GET patient_path None [("Authorization", "Bearer stale-token")] in
  let out := call (H := opaque_repr) rejecting frozen_clock GET patient_path None s in
  rejecting [] req1 = Ok unauthorized
  ∧ status_code unauthorized = 401
  ∧ out.1 = Raise (OpenEMRAuthError "Token request failed (400): invalid_grant")
  ∧ sent out.2 = [req1; token_request cached_client]
  ∧ length (List.filter (λ r, negb (is_token_request r)) (sent out.2)) = 1%nat.
Proof. vm_compute. repeat split. Qed.

End ClientFacts.

(* ===================================================================== *)
(** * Resolution, filtering and formatting                                *)
(* ===================================================================== *)

Module ToolFacts.
Import Tool Fixtures.

(** ** Strings *)

Lemma append_cons c (s t : string) : String c s +:+ t = String c (s +:+ t).
Proof. reflexivity. Qed.



Lemma lower_ascii_idemp c : lower_ascii (lower_ascii c) = lower_ascii c.
Proof.
  unfold lower_ascii.
  destruct (Nat.leb 65 (nat_of_ascii c) && Nat.leb (nat_of_ascii c) 90)%bool eqn:Hup;
    [|by rewrite Hup].
  apply andb_true_iff in Hup as [Hlo Hhi].
  apply Nat.leb_le in Hlo, Hhi.
  rewrite nat_ascii_embedding by lia.
  replace (Nat.leb (nat_of_ascii c + 32) 90) with false
    by (symmetry; apply Nat.leb_gt; lia).
  by rewrite andb_false_r.
Qed.

Lemma lower_idemp s : lower (lower s) = lower s.
Proof. induction s as [|c s IH]; [done|]. cbn. by rewrite lower_ascii_idemp, IH. Qed.

(** ** Comprehensions and filters *)

Lemma comprehension_length {A B} (f : A → res B) (l : list A) (ys : list B) :
  comprehension f l = Ok ys → length ys = length l.
Proof.
  revert ys. induction l as [|x l IH]; intros ys; cbn [comprehension].
  - by intros [= <-].
  - unfold mbind, res_bind. destruct (f x); [|done].
    destruct (comprehension f l) as [zs|]; [|done].
    intros [= <-]. cbn. f_equal. by apply IH.
Qed.

Section Filters.
Context `{PyRepr}.


Lemma filter_true {A} (l : list A) : List.filter (λ _, true) l = l.
Proof. induction l as [|x l IH]; [done|]. cbn. by rewrite IH. Qed.

Lemma filter_filter {A} (p q : A → bool) (l : list A) :
  List.filter p (List.filter q l) = List.filter (λ a, q a && p a) l.
Proof.
  induction l as [|x l IH]; [done|]. cbn.
  destruct (q x); cbn; [destruct (p x)|]; by rewrite IH.
Qed.

Lemma filter_ext' {A} (p q : A → bool) (l : list A) :
  (∀ a, p a = q a) → List.filter p l = List.filter q l.
Proof. intros E. induction l as [|x l IH]; [done|]. cbn. by rewrite E, IH. Qed.

(** Every stage is a [filter]: by the test when the criterion is given
    and not empty, by the constant [true] otherwise. *)
Lemma filter_if_spec crit test l :
  filter_if crit test l =
  List.filter (λ a, if opt_truthy crit then satisfies crit test a else true) l.
Proof.
  destruct crit as [c|]; cbn [filter_if opt_truthy satisfies].
  - destruct (negb _); [done|]. by rewrite filter_true.
  - by rewrite filter_true.
Qed.




(** The case of the letters of the provider name does not matter. *)
Lemma matches_provider_case appt p q :
  lower p = lower q → _matches_provider appt p = _matches_provider appt q.
Proof. unfold _matches_provider. by intros ->. Qed.

Lemma matches_provider_lower appt p :
  _matches_provider appt (lower p) = _matches_provider appt p.
Proof. apply matches_provider_case, lower_idemp. Qed.

Lemma matches_date_exact date (a : record) :
  matches_date date a = true ↔ a !! "pc_eventDate" = Some (JStr date).
Proof.
  unfold matches_date, dict_get, py_eq_str.
  destruct (a !! "pc_eventDate") as [[]|]; cbn; try (split; [done|congruence]).
  rewrite String.eqb_eq. split; congruence.
Qed.

Lemma matches_status_exact status (a : record) :
  matches_status status a = true ↔ a !! "pc_apptstatus" = Some (JStr status).
Proof.
  unfold matches_status, dict_get, py_eq_str.
  destruct (a !! "pc_apptstatus") as [[]|]; cbn; try (split; [done|congruence]).
  rewrite String.eqb_eq. split; congruence.
Qed.


(** ** The formatter *)

Lemma str_join_two (a b : json) :
  blank_or_str a → blank_or_str b →
  str_join " " (List.filter py_truthy [a; b]) = Ok (join_names (text_of a) (text_of b)).
Proof.
  assert (∀ s, py_truthy (JStr s) = false → s = "") as Hblank.
  { intros s. cbn. by destruct (String.eqb_spec s ""). }
  assert (∀ v, blank_or_str v →
            (py_truthy v = false ∧ text_of v = "")
            ∨ (∃ s c, v = JStr (String c s))) as Hcases.
  { intros v [Hv|[s ->]].
    - left. split; [done|]. destruct v; try done. by rewrite (Hblank _ Hv).
    - destruct s as [|c s]; [left; done | right; eauto]. }
  intros Ha Hb.
  destruct (Hcases a Ha) as [[Hfa Hta]|(sa & ca & ->)];
    destruct (Hcases b Hb) as [[Hfb Htb]|(sb & cb & ->)];
    cbn [List.filter]; rewrite ?Hfa, ?Hfb, ?Hta, ?Htb; reflexivity.
Qed.

(** C7 (as the code has it): on a record whose provider name fields are
    each falsy or a string and whose status code can be hashed,
    [_format_appointment] returns.  A text field that is missing comes out
    as the empty string; the appointment id and the patient id come out as
    [None] when their fields are missing; the patient id is [pc_pid]
    unless that is falsy, and then [pid]; the provider name joins the
    non-blank names with a blank; the label of a known status code comes
    from the table and any other code is its own label. *)
Theorem format_appointment_defaults (appt : record) :
  blank_or_str (dict_get_or appt "pce_aid_fname" (JStr "")) →
  blank_or_str (dict_get_or appt "pce_aid_lname" (JStr "")) →
  hashable (dict_get_or appt "pc_apptstatus" (JStr "")) →
  let text k := default (JStr "") (appt !! k) in
  let ident k := default JNull (appt !! k) in
  _format_appointment appt =
    Ok {| Appt.appointment_id := ident "pc_eid";
          Appt.patient_name :=
            strip (py_str (text "fname") +:+ " " +:+ py_str (text "lname"));
          Appt.patient_id :=
            if py_truthy (ident "pc_pid") then ident "pc_pid" else ident "pid";
          Appt.provider_name :=
            join_names (text_of (text "pce_aid_fname")) (text_of (text "pce_aid_lname"));
          Appt.date := text "pc_eventDate";
          Appt.start_time := text "pc_startTime";
          Appt.end_time := text "pc_endTime";
          Appt.status := text "pc_apptstatus";
          Appt.status_label :=
            match text "pc_apptstatus" with
            | JStr code =>
                match _STATUS_LABELS !! code with
                | Some label => JStr label
                | None => JStr code
                end
            | other => other
            end;
          Appt.category := text "pc_title";
          Appt.facility := text "facility_name";
          Appt.reason := text "pc_hometext" |}.
Proof.
  intros Hf Hl Hst. cbv zeta. unfold _format_appointment.
  rewrite (str_join_two _ _ Hf Hl).
  unfold mbind, res_bind. unfold dict_get_or in *.
  destruct (default (JStr "") (appt !! "pc_apptstatus")); done.
Qed.

End Filters.

(** ** The search as a whole *)

Section Search.
Context `{PyRepr}.
Context (remote : list call → call → res json).

Local Abbreviation client_get := (client_get remote).
Local Abbreviation _search_patients := (_search_patients remote).
Local Abbreviation extend_each := (extend_each remote).
Local Abbreviation fetch_appointments := (fetch_appointments remote).
Local Abbreviation fetch_filter_format := (fetch_filter_format remote).
Local Abbreviation _find_appointments_impl := (_find_appointments_impl remote).

Lemma fetch_for_patient_log pid log :
  (_fetch_appointments_for_patient remote pid log).2 = (log ++ [fetch_call pid])%list.
Proof.
  unfold _fetch_appointments_for_patient, mbind, M_bind, Tool.client_get. cbn.
  by destruct (remote log _).
Qed.

Lemma fetch_all_log log :
  (_fetch_all_appointments remote log).2 = (log ++ [fetch_all_call])%list.
Proof.
  unfold _fetch_all_appointments, mbind, M_bind, Tool.client_get. cbn.
  by destruct (remote log _).
Qed.

(** A loop that came to its end fetched every identifier, in order. *)
Lemma extend_each_log pids : ∀ raw log out log',
  extend_each raw pids log = (Ok out, log') →
  log' = (log ++ List.map fetch_call pids)%list.
Proof.
  induction pids as [|pid pids IH]; intros raw log out log' Hrun.
  - cbn in Hrun. injection Hrun as _ <-. by rewrite app_nil_r.
  - cbn [Tool.extend_each] in Hrun. unfold mbind at 1, M_bind at 1 in Hrun.
    pose proof (fetch_for_patient_log pid log) as Hlog.
    destruct (_fetch_appointments_for_patient remote pid log) as [[more|e] log1];
      [|done].
    cbn [snd] in Hlog. subst log1.
    apply IH in Hrun. rewrite Hrun. cbn [List.map]. by rewrite <- app_assoc.
Qed.

(** What [build_result] returns when it returns. *)
Lemma build_result_ok filtered r :
  build_result filtered = Ok r →
  Result.total_count r = Z.of_nat (length (Result.appointments r))
  ∧ Result.matching_patients r = None
  ∧ (Result.appointments r = [] → r = empty_result)
  ∧ (Result.appointments r ≠ [] → Result.message r = None)
  ∧ length (Result.appointments r) = length filtered.
Proof.
  unfold build_result, mbind, res_bind.
  destruct (comprehension _format_appointment filtered) as [apps|e] eqn:Happs; [|done].
  intros [= <-]. cbn. repeat split.
  - by intros ->.
  - by destruct apps.
  - by apply comprehension_length in Happs.
Qed.

Lemma fetch_filter_format_ok pids date provider_name status log r log' :
  fetch_filter_format pids date provider_name status log = (Ok r, log') →
  ∃ filtered, build_result filtered = Ok r.
Proof.
  unfold Tool.fetch_filter_format, mbind, M_bind, lift.
  destruct (fetch_appointments pids log) as [[raw|e] log1]; [|done].
  intros [= Hr _]. eauto.
Qed.

(** C8: in every result the tool returns, [total_count] is the number of
    appointments; a message is set only in the result for no patient, in
    the result that asks to clarify, or in the empty result; the list of
    matching patients is set only in the result that asks to clarify; and
    when the records fetched are all filtered out (or none came), the tool
    returns the empty result with its message and raises nothing. *)
Theorem result_shape :
  (∀ patient_name date provider_name status patient_id log r log',
     _find_appointments_impl patient_name date provider_name status patient_id log
       = (Ok r, log') →
     Result.total_count r = Z.of_nat (length (Result.appointments r))
     ∧ (Result.message r ≠ None →
          (∃ name, r = no_patients_result name)
          ∨ (∃ name patients, (5 < length patients)%nat ∧ r = clarify_result name patients)
          ∨ r = empty_result)
     ∧ (Result.matching_patients r ≠ None →
          ∃ name patients, (5 < length patients)%nat ∧ r = clarify_result name patients))
  ∧ (∀ resolved_pids date provider_name status log raw log',
       fetch_appointments resolved_pids log = (Ok raw, log') →
       client_side_filtering date provider_name status raw = [] →
       fetch_filter_format resolved_pids date provider_name status log
         = (Ok empty_result, log')).
Proof.
  split.
  - assert (∀ pids date provider_name status log r log',
              fetch_filter_format pids date provider_name status log = (Ok r, log') →
              Result.total_count r = Z.of_nat (length (Result.appointments r))
              ∧ (Result.message r ≠ None → r = empty_result)
              ∧ Result.matching_patients r = None) as Hfetched.
    { intros pids date provider_name status log r log' Hrun.
      destruct (fetch_filter_format_ok _ _ _ _ _ _ _ Hrun) as [filtered Hb].
      destruct (build_result_ok _ _ Hb) as (Hcount & Hnone & Hempty & Hsome & _).
      split; [done|]. split; [|done].
      intros Hmsg. destruct (Result.appointments r) eqn:Happs; [by apply Hempty|].
      by rewrite Hsome in Hmsg. }
    assert (∀ pids date provider_name status log r log',
              fetch_filter_format pids date provider_name status log = (Ok r, log') →
              Result.total_count r = Z.of_nat (length (Result.appointments r))
              ∧ (Result.message r ≠ None →
                   (∃ name, r = no_patients_result name)
                   ∨ (∃ name patients, (5 < length patients)%nat
                                       ∧ r = clarify_result name patients)
                   ∨ r = empty_result)
              ∧ (Result.matching_patients r ≠ None →
                   ∃ name patients, (5 < length patients)%nat
                                    ∧ r = clarify_result name patients)) as Hgoal.
    { intros pids date provider_name status log r log' Hrun.
      destruct (Hfetched _ _ _ _ _ _ _ Hrun) as (Hcount & Hmsg & Hnone).
      split; [done|]. split; [auto|]. by rewrite Hnone. }
    intros patient_name date provider_name status patient_id log r log'.
    unfold Tool._find_appointments_impl.
    destruct patient_id as [id|]; [apply Hgoal|].
    destruct patient_name as [name|]; [|apply Hgoal].
    destruct (opt_truthy (Some name)); [|apply Hgoal].
    unfold mbind at 1, M_bind at 1.
    destruct (_search_patients name log) as [[patients|e] log1]; [|done].
    destruct patients as [|p patients].
    { intros [= <- _]. split; [done|]. split; [eauto|done]. }
    destruct (Nat.ltb_spec 5 (length (p :: patients))) as [Hmany|_]; [|apply Hgoal].
    intros [= <- _]. split; [done|]. split; intros _; [right; left|]; eauto.
  - intros resolved_pids date provider_name status log raw log' Hfetch Hfiltered.
    unfold Tool.fetch_filter_format, mbind, M_bind, lift.
    fold fetch_appointments. by rewrite Hfetch, Hfiltered.
Qed.

Lemma fetch_appointments_log pids log raw log' :
  fetch_appointments pids log = (Ok raw, log') →
  log' = (log ++ match pids with
                 | [] => [fetch_all_call]
                 | _ => List.map fetch_call pids
                 end)%list.
Proof.
  destruct pids as [|pid pids]; cbn [Tool.fetch_appointments].
  - intros Hrun. pose proof (fetch_all_log log) as Hlog.
    by rewrite Hrun in Hlog.
  - apply extend_each_log.
Qed.

Lemma fetch_filter_format_log pids date provider_name status log r log' :
  fetch_filter_format pids date provider_name status log = (Ok r, log') →
  log' = (log ++ match pids with
                 | [] => [fetch_all_call]
                 | _ => List.map fetch_call pids
                 end)%list.
Proof.
  unfold Tool.fetch_filter_format, mbind, M_bind, lift.
  destruct (fetch_appointments pids log) as [[raw|e] log1] eqn:Hfetch; [|done].
  intros [= _ <-]. by apply fetch_appointments_log in Hfetch.
Qed.

(** With one identifier, one call goes out whatever comes back. *)
Lemma fetch_filter_format_one pid date provider_name status log :
  (fetch_filter_format [pid] date provider_name status log).2
  = (log ++ [fetch_call pid])%list.
Proof.
  unfold Tool.fetch_filter_format, Tool.fetch_appointments.
  cbn [Tool.extend_each]. unfold mbind, M_bind, lift.
  pose proof (fetch_for_patient_log pid log) as Hlog.
  by destruct (_fetch_appointments_for_patient remote pid log) as [[more|e] log1].
Qed.

Lemma fetch_filter_format_none date provider_name status log :
  (fetch_filter_format [] date provider_name status log).2
  = (log ++ [fetch_all_call])%list.
Proof.
  unfold Tool.fetch_filter_format, Tool.fetch_appointments.
  unfold mbind, M_bind, lift.
  pose proof (fetch_all_log log) as Hlog.
  by destruct (_fetch_all_appointments remote log) as [[raw|e] log1].
Qed.

(** C9: with a [patient_id], whatever [patient_name] is, the search goes
    straight to the appointments of that one identifier: exactly one call
    goes out, the per-patient fetch, and it is not a patient search. *)
Theorem patient_id_short_circuit (id : Z)
    (patient_name date provider_name status : option string) (log : list call) :
  let run := _find_appointments_impl patient_name date provider_name status (Some id) log in
  let fetch := {| path := "/apis/default/api/patient/" +:+ pretty id +:+ "/appointment";
                  params := None |} in
  run = fetch_filter_format [JInt id] date provider_name status log
  ∧ run.2 = (log ++ [fetch])%list
  ∧ path fetch ≠ "/apis/default/api/patient".
Proof.
  cbv zeta. split; [reflexivity|]. split.
  - apply fetch_filter_format_one.
  - cbn. discriminate.
Qed.

(** C10: an empty string for [patient_name], [date], [provider_name] or
    [status] gives the run that the absent criterion gives; with an empty
    [patient_name] and no [patient_id] the one call is the fetch of all
    appointments; and empty filters leave the records as they are. *)
Theorem empty_string_is_absent
    (patient_name date provider_name status : option string)
    (patient_id : option Z) (log : list call) :
  _find_appointments_impl (Some "") date provider_name status patient_id log
    = _find_appointments_impl None date provider_name status patient_id log
  ∧ _find_appointments_impl patient_name (Some "") provider_name status patient_id log
    = _find_appointments_impl patient_name None provider_name status patient_id log
  ∧ _find_appointments_impl patient_name date (Some "") status patient_id log
    = _find_appointments_impl patient_name date None status patient_id log
  ∧ _find_appointments_impl patient_name date provider_name (Some "") patient_id log
    = _find_appointments_impl patient_name date provider_name None patient_id log
  ∧ (_find_appointments_impl (Some "") date provider_name status None log).2
    = (log ++ [fetch_all_call])%list
  ∧ ∀ raw, client_side_filtering (Some "") (Some "") (Some "") raw = raw.
Proof.
  repeat split; try reflexivity.
  apply fetch_filter_format_none.
Qed.

(** C1 (as the code has it): in a search by name, when the patient search
    returns 1 to 5 candidates the run continues with the identifiers of
    all candidates that carry a truthy [pid], and a run that returns has
    fetched each of them, in order; when it returns more than 5, the
    result asks to clarify, lists the first 10 candidates at most, has no
    appointments and a [total_count] of 0, and no further call is made. *)
Theorem name_search_boundary (name : string)
    (date provider_name status : option string)
    (log : list call) (patients : list record) (log' : list call) :
  name ≠ "" →
  _search_patients name log = (Ok patients, log') →
  let run := _find_appointments_impl (Some name) date provider_name status None log in
  ((1 ≤ length patients ≤ 5)%nat →
     (∀ p v, p ∈ patients → p !! "pid" = Some v → py_truthy v = true →
             v ∈ pids_of patients)
     ∧ (pids_of patients ≠ [] →
          run = fetch_filter_format (pids_of patients) date provider_name status log'
          ∧ ∀ r log'',
              run = (Ok r, log'') →
              log'' = (log' ++ List.map fetch_call (pids_of patients))%list))
  ∧ ((5 < length patients)%nat →
     run = (Ok (clarify_result name patients), log')
     ∧ Result.appointments (clarify_result name patients) = []
     ∧ Result.total_count (clarify_result name patients) = 0
     ∧ Result.matching_patients (clarify_result name patients)
         = Some (List.map match_entry (take 10 patients))
     ∧ (length (take 10 patients) ≤ 10)%nat).
Proof.
  intros Hname Hsearch. cbv zeta.
  assert (_find_appointments_impl (Some name) date provider_name status None log
          = match patients with
            | [] => (Ok (no_patients_result name), log')
            | _ =>
                if Nat.ltb 5 (length patients)
                then (Ok (clarify_result name patients), log')
                else fetch_filter_format (pids_of patients) date provider_name status log'
            end) as Hrun.
  { unfold Tool._find_appointments_impl. cbn [opt_truthy].
    destruct (String.eqb_spec name "") as [|_]; [done|]. cbn [negb].
    unfold mbind at 1, M_bind at 1. fold _search_patients. rewrite Hsearch.
    destruct patients; [done|]. by destruct (Nat.ltb _ _). }
  rewrite Hrun. split.
  - intros [Hlo Hhi].
    destruct patients as [|p0 rest] eqn:Hps; [cbn in Hlo; lia|]. rewrite <- Hps in *.
    destruct (Nat.ltb_spec 5 (length patients)) as [|_]; [lia|].
    split.
    + intros p v Hp Hv Htruthy. unfold pids_of.
      apply list_elem_of_In, in_map_iff. exists p. unfold dict_get.
      rewrite Hv. split; [done|].
      apply filter_In. split; [by apply list_elem_of_In|].
      unfold dict_get. by rewrite Hv.
    + intros Hpids. split; [done|]. intros r log'' Hfetch.
      apply fetch_filter_format_log in Hfetch. by destruct (pids_of patients).
  - intros Hmany.
    destruct patients as [|p0 rest] eqn:Hps; [cbn in Hmany; lia|]. rewrite <- Hps in *.
    destruct (Nat.ltb_spec 5 (length patients)) as [_|]; [|lia].
    repeat split. rewrite length_take. lia.
Qed.

End Search.

(** ** The theorems at work on the fixtures *)

#[local] Existing Instance opaque_repr.


Lemma format_appointment_defaults_witness :
  blank_or_str (JStr "") ∧ hashable (JStr "")
  ∧ _format_appointment (H := opaque_repr) ∅ =
      Ok {| Appt.appointment_id := JNull;
            Appt.patient_name := "";
            Appt.patient_id := JNull;
            Appt.provider_name := "";
            Appt.date := JStr "";
            Appt.start_time := JStr "";
            Appt.end_time := JStr "";
            Appt.status := JStr "";
            Appt.status_label := JStr "";
            Appt.category := JStr "";
            Appt.facility := JStr "";
            Appt.reason := JStr "" |}.
Proof.
  split; [left; reflexivity|]. split; [exact I|].
  pose proof (format_appointment_defaults (H := opaque_repr) ∅
                (or_introl eq_refl) (or_introl eq_refl) I) as Hempty.
  vm_compute in Hempty. vm_compute. exact Hempty.
Defined.

(** C7, as stated, fails: a record whose provider first name is the
    number 7 makes [" ".join] raise, and the record with no field at all
    comes out with [None], not the empty string, as its two ids. *)
Lemma format_appointment_total_counterexample :
  _format_appointment (H := opaque_repr) {[ "pce_aid_fname" := JInt 7 ]} = Raise TypeError
  ∧ (∃ out, _format_appointment (H := opaque_repr) ∅ = Ok out
            ∧ Appt.appointment_id out = JNull
            ∧ Appt.patient_id out = JNull
            ∧ Appt.appointment_id out ≠ JStr "").
Proof.
  split; [vm_compute; reflexivity|].
  eexists. vm_compute. repeat split. discriminate.
Qed.

Lemma result_shape_witness :
  let remote := _mock_client [] three_visits [] in
  let date := Some "2099-01-01" in
  ∃ log',
    _find_appointments_impl (H := opaque_repr) remote None date None None None []
      = (Ok empty_result, log')
    ∧ fetch_appointments (H := opaque_repr) remote [] [] = (Ok three_visits, log')
    ∧ client_side_filtering (H := opaque_repr) date None None three_visits = []
    ∧ Result.total_count empty_result
      = Z.of_nat (length (Result.appointments empty_result)).
Proof.
  cbv zeta. exists [fetch_all_call].
  destruct (result_shape (H := opaque_repr) (_mock_client [] three_visits []))
    as [Hshape Hempty].
  assert (fetch_appointments (H := opaque_repr) (_mock_client [] three_visits []) [] []
          = (Ok three_visits, [fetch_all_call])) as Hfetch
    by (vm_compute; reflexivity).
  assert (client_side_filtering (H := opaque_repr) (Some "2099-01-01") None None three_visits
          = []) as Hnone
    by (vm_compute; reflexivity).
  pose proof (Hempty [] (Some "2099-01-01") None None [] three_visits [fetch_all_call]
                Hfetch Hnone) as Hrun.
  split; [exact Hrun|]. split; [exact Hfetch|]. split; [exact Hnone|].
  exact (proj1 (Hshape None (Some "2099-01-01") None None None [] empty_result
                  [fetch_all_call] Hrun)).
Defined.

Lemma name_search_boundary_witness :
  let search patients :=
    _find_appointments_impl (H := opaque_repr) (_mock_client patients [] [])
      (Some "P") None None None None [] in
  "P" ≠ ""
  ∧ (search (crowd 5)).2
    = search_call "lname" "P"
      :: List.map (λ i, fetch_call (H := opaque_repr) (JInt i)) [1; 2; 3; 4; 5]
  ∧ search (crowd 6) = (Ok (clarify_result (H := opaque_repr) "P" (crowd 6)),
                        [search_call "lname" "P"]).
Proof.
  cbv zeta. split; [discriminate|].
  destruct (name_search_boundary (H := opaque_repr) (_mock_client (crowd 5) [] [])
              "P" None None None [] (crowd 5) [search_call "lname" "P"])
    as [Hfew _]; [discriminate | vm_compute; reflexivity |].
  destruct (name_search_boundary (H := opaque_repr) (_mock_client (crowd 6) [] [])
              "P" None None None [] (crowd 6) [search_call "lname" "P"])
    as [_ Hmany]; [discriminate | vm_compute; reflexivity |].
  split.
  - assert (pids_of (crowd 5) ≠ []) as Hpids
      by (intros Hnil; vm_compute in Hnil; discriminate Hnil).
    destruct Hfew as (_ & Hresolved); [cbn; lia|].
    destruct (Hresolved Hpids) as (_ & Hlog).
    destruct (_find_appointments_impl (_mock_client (crowd 5) [] []) (Some "P")
                None None None None []) as [r log''] eqn:Hrun.
    assert (Hrun' := Hrun). vm_compute in Hrun'.
    destruct r as [r|e]; [|discriminate Hrun'].
    cbn [snd]. rewrite (Hlog r log'' eq_refl).
    vm_compute. reflexivity.
  - apply Hmany. cbn. lia.
Defined.

(** C1, as stated, fails: eleven candidates and twelve candidates give the
    same result, so the result cannot carry the number of matches; it
    lists ten patients and its [total_count] is 0. *)
Lemma ambiguous_total_count_counterexample :
  let search n :=
    _find_appointments_impl (H := opaque_repr) (_mock_client (crowd n) [] [])
      (Some "P") None None None None [] in
  search 11%nat = search 12%nat
  ∧ ∃ r shown,
      (search 11%nat).1 = Ok r
      ∧ Result.total_count r = 0
      ∧ Result.matching_patients r = Some shown
      ∧ length shown = 10%nat.
Proof.
  cbv zeta. split; [vm_compute; reflexivity|].
  eexists _, _. vm_compute. repeat split.
Qed.

(** C3, at the failing input: the name search finds one patient whose
    record has no [pid]; the tool then fetches all appointments and
    returns the visit of another patient. *)
Lemma unscoped_fetch_after_name_search :
  let remote := _mock_client [nameless] [janes_visit] [] in
  let out := _find_appointments_impl (H := opaque_repr) remote
               (Some "Doe") None None None None [] in
  out.2 = [search_call "lname" "Doe"; fetch_all_call]
  ∧ ∃ r, out.1 = Ok r
         ∧ Result.total_count r = 1
         ∧ Appt.patient_name <$> Result.appointments r = ["Jane Roe"]
         ∧ Appt.patient_id <$> Result.appointments r = [JInt 77].
Proof.
  cbv zeta. split; [vm_compute; reflexivity|].
  eexists. vm_compute. repeat split.
Qed.

End ToolFacts.

(* ===================================================================== *)
(** * More on the client                                                  *)
(* ===================================================================== *)

Module ClientMore.
Import Client Fixtures ClientFacts Trace Worlds.

Section Facts.
Context `{PyRepr}.
Context (server : list request → request → res response).
Context (clock : nat → Z).

Local Abbreviation authenticate := (authenticate server clock).
Local Abbreviation _token_is_valid := (_token_is_valid clock).
Local Abbreviation _ensure_token := (_ensure_token server clock).
Local Abbreviation call := (call server clock).


(** X2: when the grant holds an [access_token] and a lifetime on which
    [int] raises, [authenticate] raises that exception after the new
    token was stored: the client is left with the new token and the old
    expiry, and the clock was not read. *)
Theorem bad_lifetime_tears_credential (s : session) (resp : response)
    (d : record) (tok : json) (e : exn) :
  server (sent s) (token_request (self s)) = Ok resp →
  status_code resp = 200 →
  decoded resp = Some (JDict d) →
  d !! "access_token" = Some tok →
  py_int (default (JInt 3600) (d !! "expires_in")) = Raise e →
  ∃ s',
    authenticate s = (Raise e, s')
    ∧ _access_token (self s') = tok
    ∧ _token_expiry (self s') = _token_expiry (self s)
    ∧ clock_reads s' = clock_reads s.
Proof.
  intros Hsrv Hst Hdec Htok Hint.
  rewrite authenticate_unfold, Hsrv, Hst. cbv zeta. cbn [Z.eqb Pos.eqb negb].
  unfold json_of. rewrite Hdec. cbn [subscript]. rewrite Htok.
  cbn [payload_get]. unfold mbind, res_bind, dict_get_or. rewrite Hint.
  eexists. split; [reflexivity|]. done.
Qed.

(** X3: when the 200 answer of the token endpoint is not JSON, is not an
    object, or has no [access_token], [authenticate] raises
    [JSONDecodeError], [TypeError] or [KeyError] and the client is as it
    was: the session differs by the token request alone. *)
Theorem malformed_grant_changes_nothing (s : session) (resp : response) (e : exn) :
  server (sent s) (token_request (self s)) = Ok resp →
  status_code resp = 200 →
  (json_of resp ≫= λ payload, subscript payload "access_token") = Raise e →
  authenticate s = (Raise e, sending s (token_request (self s)))
  ∧ (e = JSONDecodeError ∨ e = KeyError "access_token" ∨ e = TypeError).
Proof.
  intros Hsrv Hst Hbad.
  rewrite authenticate_unfold, Hsrv, Hst. cbv zeta. cbn [Z.eqb Pos.eqb negb].
  unfold mbind, res_bind in Hbad. unfold json_of in *.
  destruct (decoded resp) as [payload|].
  - destruct payload as [| | | | |d]; cbn in Hbad |- *;
      try (injection Hbad as <-; auto).
    destruct (d !! "access_token"); [done|]. injection Hbad as <-. auto.
  - injection Hbad as <-. auto.
Qed.

Lemma token_form_fields (c : OpenEMRClient) :
  take 5 (token_form c)
    = [("grant_type", "password"); ("username", username c);
       ("password", password c); ("client_id", client_id c); ("scope", scopes c)]
  ∧ ((∃ v, ("client_secret", v) ∈ token_form c) ↔ client_secret c ≠ "")
  ∧ (∀ v, ("client_secret", v) ∈ token_form c → v = client_secret c).
Proof.
  unfold token_form. split; [reflexivity|].
  destruct (String.eqb_spec (client_secret c) "") as [Heq|Hne]; cbn [negb].
  - split; [split|].
    + intros [v Hv]. rewrite app_nil_r in Hv.
      repeat (apply elem_of_cons in Hv as [Hv|Hv]; [discriminate Hv|]).
      by apply elem_of_nil in Hv.
    + done.
    + intros v Hv. rewrite app_nil_r in Hv.
      repeat (apply elem_of_cons in Hv as [Hv|Hv]; [discriminate Hv|]).
      by apply elem_of_nil in Hv.
  - split; [split|].
    + done.
    + intros _. exists (client_secret c). apply elem_of_app. right. by left.
    + intros v Hv. apply elem_of_app in Hv as [Hv|Hv].
      * repeat (apply elem_of_cons in Hv as [Hv|Hv]; [discriminate Hv|]).
        by apply elem_of_nil in Hv.
      * apply list_elem_of_singleton in Hv. congruence.
Qed.

(** X4: whatever the outcome, [authenticate] sends exactly one request: a
    POST to [/oauth2/default/token] with no header (so the token in hand
    never goes with it), whose form starts with the grant type, user
    name, password, client id and scope of the client, and holds a
    [client_secret] exactly when the client's secret is not empty, then
    with that secret as its value. *)
Theorem token_exchange_request (s : session) :
  ∃ r form,
    sent (authenticate s).2 = (sent s ++ [r])%list
    ∧ req_method r = POST
    ∧ req_path r = "/oauth2/default/token"
    ∧ req_headers r = []
    ∧ req_data r = Some form
    ∧ take 5 form
      = [("grant_type", "password"); ("username", username (self s));
         ("password", password (self s)); ("client_id", client_id (self s));
         ("scope", scopes (self s))]
    ∧ ((∃ v, ("client_secret", v) ∈ form) ↔ client_secret (self s) ≠ "")
    ∧ (∀ v, ("client_secret", v) ∈ form → v = client_secret (self s)).
Proof.
  exists (token_request (self s)), (token_form (self s)).
  split; [apply authenticate_sent|].
  do 4 (split; [reflexivity|]). apply token_form_fields.
Qed.

(** X5: with a token in hand, a first answer whose status is not 401 ends
    the call: the request went out once, the call returns the decoded
    body when the status is in 200..299 and raises [HTTPStatusError] with
    that answer otherwise, and the client keeps token and expiry. *)
Theorem only_a_401_is_retried (m : method) (path : string) (arg : option record)
    (s s1 : session) (resp1 : response) :
  _ensure_token s = (Ok (), s1) →
  let req1 := api_request m path arg (_auth_headers (self s1)) in
  server (sent s1) req1 = Ok resp1 →
  status_code resp1 ≠ 401 →
  call m path arg s =
    (if is_success (status_code resp1) then json_of resp1
     else Raise (HTTPStatusError resp1),
     sending s1 req1)
  ∧ self (sending s1 req1) = self s1.
Proof.
  intros Hensure req1 Hsrv Hst. split; [|done].
  rewrite call_unfold, Hensure. cbv zeta. fold req1. rewrite Hsrv.
  by destruct (Z.eqb_spec (status_code resp1) 401).
Qed.

(** X6: with a token in hand, an exception raised by the exchange itself
    (a timeout, say) ends the call with that exception; the request went
    out once and no token is asked for. *)
Theorem transport_error_is_not_retried (m : method) (path : string)
    (arg : option record) (s s1 : session) (e : exn) :
  _ensure_token s = (Ok (), s1) →
  let req1 := api_request m path arg (_auth_headers (self s1)) in
  server (sent s1) req1 = Raise e →
  call m path arg s = (Raise e, sending s1 req1).
Proof.
  intros Hensure req1 Hsrv.
  rewrite call_unfold, Hensure. cbv zeta. fold req1. by rewrite Hsrv.
Qed.

(** A failed [_ensure_token] is a failed exchange: the token request went
    out and nothing else. *)
Lemma ensure_token_raises s e s1 :
  _ensure_token s = (Raise e, s1) →
  sent s1 = (sent s ++ [token_request (self s)])%list.
Proof.
  rewrite ensure_token_unfold. intros Hrun.
  assert (∀ s0, sent s0 = sent s → self s0 = self s →
                authenticate s0 = (Raise e, s1) →
                sent s1 = (sent s ++ [token_request (self s)])%list) as Hauth.
  { intros s0 Hs Hc Ha. pose proof (authenticate_sent server clock s0) as Hsent.
    rewrite Ha in Hsent. cbn [snd] in Hsent. by rewrite Hsent, Hs, Hc. }
  destruct (_access_token (self s)); try destruct (_ <? _); try done;
    first [ by apply (Hauth s) | by apply (Hauth (tick s)) ].
Qed.

(** X7: when obtaining the token fails, [get] and [post] raise that
    failure, and the token request is all that went out: the API request
    is never sent. *)
Theorem failed_exchange_sends_no_request (m : method) (path : string)
    (arg : option record) (s s1 : session) (e : exn) :
  _ensure_token s = (Raise e, s1) →
  call m path arg s = (Raise e, s1)
  ∧ sent s1 = (sent s ++ [token_request (self s)])%list.
Proof.
  intros Hensure. split; [|by eapply ensure_token_raises].
  by rewrite call_unfold, Hensure.
Qed.

(** X8: one [get] or [post] sends at most four requests, in this order: at
    most one token request, then nothing, or the API request, or the API
    request and a token request, or the API request, a token request and
    the API request once more. *)
Theorem call_sends_at_most_four (m : method) (path : string)
    (arg : option record) (s : session) :
  ∃ before after,
    sent (call m path arg s).2 = (sent s ++ before ++ after)%list
    ∧ (before = [] ∨ before = [token_request (self s)])
    ∧ (after = []
       ∨ (∃ h1, after = [api_request m path arg h1])
       ∨ (∃ h1 c, after = [api_request m path arg h1; token_request c])
       ∨ (∃ h1 c h2, after = [api_request m path arg h1; token_request c;
                              api_request m path arg h2]))
    ∧ (length (before ++ after) ≤ 4)%nat.
Proof.
  rewrite call_unfold.
  pose proof (ensure_token_sent server clock s) as Hbefore.
  destruct (_ensure_token s) as [[[]|e] s1] eqn:Hensure; cbn [snd] in Hbefore.
  2:{ apply ensure_token_raises in Hensure.
      exists [token_request (self s)], []. cbn [snd]. rewrite Hensure.
      cbn. split; [done|]. split; [auto|]. split; [auto|lia]. }
  assert (∃ before, sent s1 = (sent s ++ before)%list
                    ∧ (before = [] ∨ before = [token_request (self s)]))
    as (before & Hs1 & Hb).
  { destruct Hbefore as [->| ->]; [exists []; rewrite app_nil_r | eexists]; eauto. }
  assert (length before ≤ 1)%nat as Hlen by (destruct Hb as [->| ->]; cbn; lia).
  cbv zeta. set (req1 := api_request m path arg (_auth_headers (self s1))).
  destruct (server (sent s1) req1) as [resp1|e].
  2:{ exists before, [req1]. cbn [snd sending sent]. rewrite Hs1, <- app_assoc, length_app.
      cbn. split; [done|]. split; [done|]. split; [eauto|lia]. }
  destruct (Z.eqb (status_code resp1) 401).
  2:{ exists before, [req1]. cbn [snd sending sent]. rewrite Hs1, <- app_assoc, length_app.
      cbn. split; [done|]. split; [done|]. split; [eauto|lia]. }
  pose proof (authenticate_sent server clock (sending s1 req1)) as Hsent.
  destruct (authenticate (sending s1 req1)) as [[[]|e] s2];
    cbn [snd sending sent self] in Hsent.
  - exists before, [req1; token_request (self s1);
                    api_request m path arg (_auth_headers (self s2))].
    cbn [snd sending sent]. rewrite Hsent, Hs1, <- !app_assoc, length_app.
    cbn. split; [done|]. split; [done|]. split; [eauto 10|lia].
  - exists before, [req1; token_request (self s1)].
    cbn [snd]. rewrite Hsent, Hs1, <- !app_assoc, length_app.
    cbn. split; [done|]. split; [done|]. split; [eauto 10|lia].
Qed.

(** X9: a client as [__init__] leaves it holds no valid token, whatever
    the clock says, and its first [get] or [post] starts with the token
    request. *)
Theorem new_client_authenticates_first
    (base client secret user pass scope : string)
    (sent0 : list request) (reads0 : nat)
    (m : method) (path : string) (arg : option record) :
  let c := init base client secret user pass scope in
  let s := {| self := c; sent := sent0; clock_reads := reads0 |} in
  _token_is_valid s = (Ok false, s)
  ∧ ∃ rest, sent (call m path arg s).2 = (sent0 ++ token_request c :: rest)%list.
Proof.
  cbv zeta.
  set (c := init base client secret user pass scope).
  set (s := {| self := c; sent := sent0; clock_reads := reads0 |}).
  split; [by rewrite token_is_valid_unfold|].
  assert (_ensure_token s = authenticate s) as Hensure
    by (by rewrite ensure_token_unfold).
  pose proof (authenticate_sent server clock s) as Hsent.
  rewrite call_unfold, Hensure.
  destruct (authenticate s) as [[[]|e] s1] eqn:Hauth; cbn [snd] in *; [|by exists []].
  cbv zeta. set (req1 := api_request m path arg (_auth_headers (self s1))).
  assert (∀ x : res json * session,
            (∃ tail, sent x.2 = (sent s1 ++ tail)%list) →
            ∃ rest, sent x.2 = (sent0 ++ token_request c :: rest)%list) as Hgrow.
  { intros x [tail Hx]. exists tail. by rewrite Hx, Hsent, <- app_assoc. }
  apply Hgrow.
  destruct (server (sent s1) req1) as [resp1|e]; [|by exists [req1]].
  destruct (Z.eqb (status_code resp1) 401); [|by exists [req1]].
  pose proof (authenticate_sent server clock (sending s1 req1)) as Hsent2.
  destruct (authenticate (sending s1 req1)) as [[[]|e] s2];
    cbn [snd sending sent self] in Hsent2 |- *;
    eexists; rewrite Hsent2, <- !app_assoc; reflexivity.
Qed.

End Facts.

(** ** The theorems at work on the fixtures *)

#[local] Existing Instance opaque_repr.


Lemma bad_lifetime_tears_credential_witness :
  ∃ s',
    authenticate sloppy frozen_clock (start cached_client) = (Raise ValueError, s')
    ∧ _access_token (self s') = JStr "fresh-token"
    ∧ _token_expiry (self s') = _token_expiry cached_client
    ∧ clock_reads s' = 0%nat.
Proof.
  edestruct (bad_lifetime_tears_credential sloppy frozen_clock (start cached_client)
               odd_lifetime (body_of odd_lifetime) (JStr "fresh-token") ValueError)
    as (s' & Hrun & Htok & Hexp & Hclock);
    [ reflexivity | reflexivity | reflexivity | vm_compute; reflexivity
    | vm_compute; reflexivity | ].
  exists s'. split; [exact Hrun|]. split; [exact Htok|]. split; [exact Hexp|exact Hclock].
Defined.

Lemma malformed_grant_changes_nothing_witness :
  authenticate forgetful frozen_clock (start cached_client)
  = (Raise (KeyError "access_token"),
     sending (start cached_client) (token_request cached_client)).
Proof.
  refine (proj1 (malformed_grant_changes_nothing forgetful frozen_clock
                   (start cached_client) no_token (KeyError "access_token") _ _ _));
    [ reflexivity | reflexivity | vm_compute; reflexivity ].
Defined.

Lemma only_a_401_is_retried_witness :
  let req1 := api_request GET patient_path None [("Authorization", "Bearer stale-token")] in
  call (H := opaque_repr) granting frozen_clock GET patient_path None (start cached_client)
  = (Ok (JDict {[ "data" := JList [] ]}), sending (tick (start cached_client)) req1).
Proof.
  cbv zeta.
  destruct (only_a_401_is_retried (H := opaque_repr) granting frozen_clock GET
              patient_path None (start cached_client) (tick (start cached_client)) no_data)
    as [Hcall _]; [ vm_compute; reflexivity | reflexivity | discriminate | ].
  rewrite Hcall. vm_compute. reflexivity.
Defined.

Lemma transport_error_is_not_retried_witness :
  let req1 := api_request GET patient_path None [("Authorization", "Bearer stale-token")] in
  call (H := opaque_repr) timing_out frozen_clock GET patient_path None (start cached_client)
  = (Raise TimeoutException, sending (tick (start cached_client)) req1).
Proof.
  cbv zeta.
  rewrite (transport_error_is_not_retried (H := opaque_repr) timing_out frozen_clock GET
             patient_path None (start cached_client) (tick (start cached_client))
             TimeoutException);
    [ vm_compute; reflexivity | vm_compute; reflexivity | reflexivity ].
Defined.

Lemma failed_exchange_sends_no_request_witness :
  let s1 := sending (start test_client) (token_request test_client) in
  call (H := opaque_repr) rejecting frozen_clock POST patient_path None (start test_client)
  = (Raise (OpenEMRAuthError "Token request failed (400): invalid_grant"), s1)
  ∧ sent s1 = [token_request test_client].
Proof.
  cbv zeta.
  apply (failed_exchange_sends_no_request (H := opaque_repr) rejecting frozen_clock POST
           patient_path None (start test_client)).
  vm_compute. reflexivity.
Defined.

End ClientMore.

(* ===================================================================== *)
(** * More on the search                                                  *)
(* ===================================================================== *)

Module ToolMore.
Import Client Tool Fixtures ToolFacts Trace Worlds.

Lemma append_empty_l (t : string) : "" +:+ t = t.
Proof. reflexivity. Qed.

Lemma append_empty_r (t : string) : t +:+ "" = t.
Proof. induction t as [|c t IH]; [done|]. by rewrite append_cons, IH. Qed.

Lemma append_assoc (a b c : string) : (a +:+ b) +:+ c = a +:+ (b +:+ c).
Proof. induction a as [|x a IH]; [done|]. by rewrite !append_cons, IH. Qed.

Lemma rstrip_slash_decompose s : ∃ k, s = rstrip_slash s +:+ slashes k.
Proof.
  induction s as [|c s [k IH]]; [by exists 0%nat|].
  cbn [rstrip_slash]. destruct (rstrip_slash s) as [|a r] eqn:Hr.
  - rewrite IH. cbn. destruct (Ascii.eqb_spec c "/") as [->|_].
    + by exists (S k).
    + by exists k.
  - exists k. rewrite append_cons. by rewrite <- IH.
Qed.

Lemma rstrip_slash_no_tail s : ∀ t, rstrip_slash s ≠ t +:+ "/".
Proof.
  induction s as [|c s IH]; intros t; cbn [rstrip_slash].
  - destruct t; [rewrite append_empty_l | rewrite append_cons]; done.
  - destruct (rstrip_slash s) as [|a r] eqn:Hr.
    + destruct (Ascii.eqb_spec c "/") as [->|Hc].
      * destruct t; [rewrite append_empty_l | rewrite append_cons]; done.
      * destruct t as [|c' [|? ?]];
          rewrite ?append_cons, ?append_empty_l; congruence.
    + destruct t as [|c' t]; [by rewrite append_empty_l|].
      rewrite append_cons. intros [= _ Ht]. by apply (IH t).
Qed.

(** X10: [__init__] stores the base URL without its trailing slashes: the
    argument is the stored URL followed by slashes only, the stored URL
    does not end in a slash, and building a client from the stored URL
    stores it unchanged. *)
Theorem base_url_without_trailing_slash
    (base client secret user pass scope : string) :
  let stored := base_url (init base client secret user pass scope) in
  (∃ k, base = stored +:+ slashes k)
  ∧ (∀ t, stored ≠ t +:+ "/")
  ∧ base_url (init stored client secret user pass scope) = stored.
Proof.
  cbn. split; [apply rstrip_slash_decompose|]. split; [apply rstrip_slash_no_tail|].
  destruct (rstrip_slash_decompose (rstrip_slash base)) as [k Hk].
  destruct k as [|k]; [cbn [slashes] in Hk; rewrite append_empty_r in Hk; by symmetry|].
  exfalso. revert Hk. generalize (rstrip_slash (rstrip_slash base)). intros u Hk.
  assert (∀ v k', ∃ w, v +:+ slashes (S k') = w +:+ "/") as Htail.
  { intros v k'. revert v. induction k' as [|k' IH]; intros v; [by exists v|].
    destruct (IH (v +:+ "/")) as [w Hw]. exists w. rewrite <- Hw.
    cbn [slashes]. by rewrite append_assoc. }
  destruct (Htail u k) as [w Hw]. rewrite Hw in Hk.
  by apply rstrip_slash_no_tail in Hk.
Qed.

(** ** [strip] *)







Section Formatted.
Context `{PyRepr}.


(** ** Filtering *)

Lemma filter_sublist {A} (p : A → bool) (l : list A) : sublist (List.filter p l) l.
Proof.
  induction l as [|x l IH]; [constructor|]. cbn.
  destruct (p x); by constructor.
Qed.

Lemma filter_if_sublist crit test l : sublist (filter_if crit test l) l.
Proof. rewrite filter_if_spec. apply filter_sublist. Qed.

Lemma filter_idemp {A} (p : A → bool) (l : list A) :
  List.filter p (List.filter p l) = List.filter p l.
Proof.
  rewrite filter_filter. apply filter_ext'. intros a. by destruct (p a).
Qed.

Lemma filtering_as_filter date provider_name status raw :
  client_side_filtering date provider_name status raw =
  List.filter
    (λ a, (if opt_truthy date then satisfies date matches_date a else true)
          && ((if opt_truthy status then satisfies status matches_status a else true)
              && (if opt_truthy provider_name
                  then satisfies provider_name (λ p a, _matches_provider a p) a
                  else true)))
    raw.
Proof.
  unfold client_side_filtering, by_provider, by_status, by_date.
  by rewrite !filter_if_spec, !filter_filter.
Qed.

(** X12: the client-side filtering keeps a sublist of the fetched records
    (nothing added, nothing reordered), filtering the outcome again with
    the same criteria changes nothing, and the [total_count] of the
    result built from it lies between 0 and the number of records
    fetched. *)
Theorem filtering_only_removes
    (date provider_name status : option string) (raw : list record) :
  let kept := client_side_filtering date provider_name status raw in
  sublist kept raw
  ∧ client_side_filtering date provider_name status kept = kept
  ∧ (∀ r, build_result kept = Ok r →
          0 ≤ Result.total_count r ≤ Z.of_nat (length raw)).
Proof.
  cbv zeta. split; [|split].
  - rewrite filtering_as_filter. apply filter_sublist.
  - rewrite !filtering_as_filter. apply filter_idemp.
  - intros r Hr. destruct (build_result_ok _ _ Hr) as (Hcount & _ & _ & _ & Hlen).
    rewrite Hcount, Hlen.
    assert (length (client_side_filtering date provider_name status raw) ≤ length raw)%nat.
    { apply sublist_length. rewrite filtering_as_filter. apply filter_sublist. }
    lia.
Qed.

Lemma comprehension_Forall2 {A B} (f : A → res B) (l : list A) (ys : list B) :
  comprehension f l = Ok ys → Forall2 (λ x y, f x = Ok y) l ys.
Proof.
  revert ys. induction l as [|x l IH]; intros ys; cbn [comprehension].
  - intros [= <-]. constructor.
  - unfold mbind, res_bind. destruct (f x) eqn:Hx; [|done].
    destruct (comprehension f l) as [zs|]; [|done].
    intros [= <-]. constructor; [done|]. by apply IH.
Qed.

Lemma format_keeps_date_and_status appt out :
  _format_appointment appt = Ok out →
  Appt.date out = dict_get_or appt "pc_eventDate" (JStr "")
  ∧ Appt.status out = dict_get_or appt "pc_apptstatus" (JStr "").
Proof.
  unfold _format_appointment, mbind, res_bind.
  destruct (str_join _ _); [|done]. destruct (labels_get _ _); [|done].
  by intros [= <-].
Qed.

Lemma build_result_meets_date_and_status
    (date provider_name status : option string) (raw : list record) (r : Result.t) :
  build_result (client_side_filtering date provider_name status raw) = Ok r →
  (∀ d, date = Some d → d ≠ "" →
        Forall (λ a, Appt.date a = JStr d) (Result.appointments r))
  ∧ (∀ c, status = Some c → c ≠ "" →
          Forall (λ a, Appt.status a = JStr c) (Result.appointments r)).
Proof.
  intros Hr.
  assert (Forall2 (λ x y, _format_appointment x = Ok y)
            (client_side_filtering date provider_name status raw)
            (Result.appointments r)) as Hall.
  { unfold build_result, mbind, res_bind in Hr.
    destruct (comprehension _ _) as [apps|] eqn:Happs; [|done].
    injection Hr as <-. by apply comprehension_Forall2. }
  rewrite filtering_as_filter in Hall.
  assert (∀ P : Appt.t → Prop,
            (∀ x y, In x raw → _format_appointment x = Ok y →
                    (if opt_truthy date then satisfies date matches_date x else true) = true →
                    (if opt_truthy status then satisfies status matches_status x else true) = true →
                    P y) →
            Forall P (Result.appointments r)) as Hlift.
  { intros P HP. apply Forall_forall. intros y Hy.
    apply (list_elem_of_lookup_1 _ y) in Hy as [i Hi].
    destruct (Forall2_lookup_r _ _ _ _ _ Hall Hi) as (x & Hx & Hfmt).
    apply list_elem_of_lookup_2, list_elem_of_In, filter_In in Hx as [Hin Hpass].
    apply andb_true_iff in Hpass as [Hd Hpass].
    apply andb_true_iff in Hpass as [Hs _]. eauto. }
  split.
  - intros d -> Hd. apply Hlift. intros x y _ Hfmt Hpass _.
    cbn in Hpass. destruct (String.eqb_spec d ""); [done|]. cbn in Hpass.
    apply matches_date_exact in Hpass.
    destruct (format_keeps_date_and_status _ _ Hfmt) as [-> _].
    unfold dict_get_or. by rewrite Hpass.
  - intros c -> Hc. apply Hlift. intros x y _ Hfmt _ Hpass.
    cbn in Hpass. destruct (String.eqb_spec c ""); [done|]. cbn in Hpass.
    apply matches_status_exact in Hpass.
    destruct (format_keeps_date_and_status _ _ Hfmt) as [_ ->].
    unfold dict_get_or. by rewrite Hpass.
Qed.

End Formatted.

Section Search.
Context `{PyRepr}.
Context (remote : list call → call → res json).

Local Abbreviation client_get := (client_get remote).
Local Abbreviation _search_patients := (_search_patients remote).
Local Abbreviation extend_each := (extend_each remote).
Local Abbreviation fetch_appointments := (fetch_appointments remote).
Local Abbreviation fetch_filter_format := (fetch_filter_format remote).
Local Abbreviation _find_appointments_impl := (_find_appointments_impl remote).

Lemma answered_app log before after :
  answered remote log before →
  answered remote (log ++ before)%list after →
  answered remote log (before ++ after)%list.
Proof.
  revert log. induction before as [|c before IH]; intros log Hb Ha.
  - by rewrite app_nil_r in Ha.
  - destruct Hb as [Hc Hb]. split; [done|]. apply IH; [done|].
    by rewrite <- app_assoc.
Qed.

Lemma tracking_ret {A} (a : A) : tracking remote (mret a).
Proof. intros log. exists []. rewrite app_nil_r. split; [done|]. by left. Qed.

Lemma tracking_lift {A} (x : res A) : tracking remote (lift x).
Proof. intros log. exists []. rewrite app_nil_r. split; [done|]. by left. Qed.

Lemma tracking_get path params : tracking remote (client_get path params).
Proof.
  intros log. eexists [_]. split; [reflexivity|]. cbn [fst Tool.client_get].
  destruct (remote log _) as [j|e] eqn:Hr.
  - left. split; [eauto|done].
  - right. exists [], {| path := path; params := params |}, e.
    split; [done|]. split; [done|]. split; [by rewrite app_nil_r|done].
Qed.

Lemma tracking_bind {A B} (m : M (list call) A) (f : A → M (list call) B) :
  tracking remote m → (∀ a, tracking remote (f a)) → tracking remote (m ≫= f).
Proof.
  intros Hm Hf log. destruct (Hm log) as (new1 & Hlog1 & Ht1).
  unfold mbind, M_bind. destruct (m log) as [[a|e] log1]; cbn [fst snd] in *; subst log1.
  - destruct Ht1 as [Ha1|(b & c & e & _ & _ & _ & ?)]; [|done].
    destruct (Hf a (log ++ new1)%list) as (new2 & Hlog2 & Ht2).
    exists (new1 ++ new2)%list. rewrite Hlog2, <- app_assoc. split; [done|].
    destruct Ht2 as [Ha2|(b & c & e & -> & Hb & Hc & Hr)].
    + left. by apply answered_app.
    + right. exists (new1 ++ b)%list, c, e.
      split; [by rewrite app_assoc|]. split; [by apply answered_app|].
      split; [by rewrite app_assoc|done].
  - exists new1. split; [done|].
    destruct Ht1 as [Ha1|(b & c & e' & -> & Hb & Hc & Hr)]; [by left|].
    injection Hr as <-. right. exists b, c, e. repeat split; assumption || reflexivity.
Qed.

Lemma tracking_search name : tracking remote (_search_patients name).
Proof.
  unfold Tool._search_patients.
  apply tracking_bind; [apply tracking_get|]. intros resp.
  apply tracking_bind; [|intros; apply tracking_ret].
  destruct (negb _); [|apply tracking_ret].
  apply tracking_bind; [apply tracking_get|]. intros; apply tracking_ret.
Qed.

Lemma tracking_extend pids : ∀ raw, tracking remote (extend_each raw pids).
Proof.
  induction pids as [|pid pids IH]; intros raw; cbn [Tool.extend_each].
  - apply tracking_ret.
  - apply tracking_bind; [|intros; apply IH].
    unfold _fetch_appointments_for_patient.
    apply tracking_bind; [apply tracking_get|]. intros; apply tracking_ret.
Qed.

Lemma tracking_fetch_filter_format pids date provider_name status :
  tracking remote (fetch_filter_format pids date provider_name status).
Proof.
  unfold Tool.fetch_filter_format.
  apply tracking_bind; [|intros; apply tracking_lift].
  destruct pids; cbn [Tool.fetch_appointments]; [|apply tracking_extend].
  unfold _fetch_all_appointments.
  apply tracking_bind; [apply tracking_get|]. intros; apply tracking_ret.
Qed.

Lemma tracking_impl patient_name date provider_name status patient_id :
  tracking remote
    (_find_appointments_impl patient_name date provider_name status patient_id).
Proof.
  unfold Tool._find_appointments_impl.
  destruct patient_id; [apply tracking_fetch_filter_format|].
  destruct patient_name as [name|]; [|apply tracking_fetch_filter_format].
  destruct (opt_truthy _); [|apply tracking_fetch_filter_format].
  apply tracking_bind; [apply tracking_search|]. intros patients.
  destruct patients; [apply tracking_ret|].
  destruct (Nat.ltb _ _); [apply tracking_ret | apply tracking_fetch_filter_format].
Qed.

(** X13: [_find_appointments_impl] swallows no exception of the client:
    when it returns a result every call it made was answered, and when
    its last call raised, it raises that very exception. *)
Theorem client_errors_are_never_swallowed
    (patient_name date provider_name status : option string)
    (patient_id : option Z) (log : list call) :
  let run := _find_appointments_impl patient_name date provider_name status
               patient_id log in
  ∃ new,
    run.2 = (log ++ new)%list
    ∧ (∀ r, run.1 = Ok r → answered remote log new)
    ∧ (∀ before c e,
         new = (before ++ [c])%list →
         remote (log ++ before)%list c = Raise e →
         run.1 = Raise e).
Proof.
  cbv zeta.
  destruct (tracking_impl patient_name date provider_name status patient_id log)
    as (new & Hlog & Ht).
  exists new. split; [done|]. split.
  - intros r Hr. destruct Ht as [Ha|(b & c & e & _ & _ & _ & Hraise)]; [done|].
    congruence.
  - intros before c e -> Hraise.
    destruct Ht as [Ha|(b & c' & e' & Heq & _ & Hc & Hr)].
    + assert (∀ l0 b0, answered remote l0 (b0 ++ [c]) →
                       ∃ j, remote (l0 ++ b0)%list c = Ok j) as Hlast.
      { intros l0 b0. revert l0. induction b0 as [|x b0 IH]; intros l0 Hx.
        - rewrite app_nil_r. by destruct Hx.
        - destruct Hx as [_ Hx]. apply IH in Hx. by rewrite <- app_assoc in Hx. }
      destruct (Hlast _ _ Ha) as [j Hj]. congruence.
    + apply app_inj_tail in Heq as [-> ->]. congruence.
Qed.

Lemma within_ret {A} (a : A) : within 0 (mret a : M (list call) A).
Proof. intros log. exists []. by rewrite app_nil_r. Qed.

Lemma within_lift {A} (x : res A) : within 0 (lift x : M (list call) A).
Proof. intros log. exists []. by rewrite app_nil_r. Qed.

Lemma within_get path params : within 1 (client_get path params).
Proof. intros log. by eexists [_]. Qed.

Lemma within_le {A} n n' (m : M (list call) A) :
  (n ≤ n')%nat → within n m → within n' m.
Proof. intros Hle Hm log. destruct (Hm log) as (new & ? & ?). exists new. split; [done|lia]. Qed.

Lemma within_bind {A B} n1 n2 (m : M (list call) A) (f : A → M (list call) B) :
  within n1 m → (∀ a, within n2 (f a)) → within (n1 + n2) (m ≫= f).
Proof.
  intros Hm Hf log. destruct (Hm log) as (new1 & Hlog1 & Hn1).
  unfold mbind, M_bind. destruct (m log) as [[a|e] log1]; cbn [snd] in *; subst log1.
  - destruct (Hf a (log ++ new1)%list) as (new2 & Hlog2 & Hn2).
    exists (new1 ++ new2)%list. rewrite Hlog2, <- app_assoc, length_app. split; [done|lia].
  - exists new1. split; [done|lia].
Qed.

Lemma within_search name : within 2 (_search_patients name).
Proof.
  unfold Tool._search_patients.
  apply (within_bind 1 1); [apply within_get|]. intros resp.
  apply (within_bind 1 0); [|intros; apply within_ret].
  destruct (negb _); [|apply (within_le 0); [lia|apply within_ret]].
  apply (within_bind 1 0); [apply within_get|]. intros; apply within_ret.
Qed.

Lemma within_fetch_one pid : within 1 (_fetch_appointments_for_patient remote pid).
Proof.
  unfold _fetch_appointments_for_patient.
  apply (within_bind 1 0); [apply within_get|]. intros; apply within_ret.
Qed.

Lemma within_extend pids : ∀ raw, within (length pids) (extend_each raw pids).
Proof.
  induction pids as [|pid pids IH]; intros raw; cbn [Tool.extend_each length].
  - apply within_ret.
  - apply (within_bind 1 (length pids)); [apply within_fetch_one|]. intros; apply IH.
Qed.

Lemma within_fetch_filter_format pids date provider_name status :
  within (Nat.max 1 (length pids))
    (fetch_filter_format pids date provider_name status).
Proof.
  unfold Tool.fetch_filter_format.
  eapply within_le; [|apply (within_bind (Nat.max 1 (length pids)) 0);
                        [|intros; apply within_lift]]; [lia|].
  destruct pids as [|pid pids]; cbn [Tool.fetch_appointments].
  - unfold _fetch_all_appointments.
    apply (within_bind 1 0); [apply within_get|]. intros; apply within_ret.
  - eapply within_le; [|apply within_extend]. lia.
Qed.

Lemma pids_of_length patients : (length (pids_of patients) ≤ length patients)%nat.
Proof.
  unfold pids_of. rewrite length_map.
  induction patients as [|p l IH]; cbn; [lia|]. destruct (py_truthy _); cbn; lia.
Qed.

Lemma opens_get path params :
  opens {| path := path; params := params |} (client_get path params).
Proof. intros log. by exists []. Qed.

Lemma opens_bind {A B} c (m : M (list call) A) (f : A → M (list call) B) :
  opens c m → (∀ a, tracking remote (f a)) → opens c (m ≫= f).
Proof.
  intros Hm Hf log. destruct (Hm log) as (rest & Hlog).
  unfold mbind, M_bind. destruct (m log) as [[a|e] log1]; cbn [snd] in *; subst log1.
  - destruct (Hf a (log ++ c :: rest)%list) as (new & Hnew & _).
    exists (rest ++ new)%list. by rewrite Hnew, <- app_assoc.
  - by exists rest.
Qed.

Lemma opens_impl patient_name date provider_name status patient_id :
  opens (first_call patient_name patient_id)
    (_find_appointments_impl patient_name date provider_name status patient_id).
Proof.
  assert (opens fetch_all_call (fetch_filter_format [] date provider_name status))
    as Hall.
  { intros log. exists []. apply (fetch_filter_format_none remote). }
  unfold first_call, Tool._find_appointments_impl.
  destruct patient_id as [id|].
  { intros log. exists []. apply (fetch_filter_format_one remote). }
  destruct patient_name as [name|]; [|done].
  destruct (opt_truthy (Some name)); [|done].
  apply opens_bind.
  - unfold Tool._search_patients, search_call.
    apply opens_bind; [apply opens_get|]. intros resp.
    apply tracking_bind; [|intros; apply tracking_ret].
    destruct (negb _); [|apply tracking_ret].
    apply tracking_bind; [apply tracking_get|]. intros; apply tracking_ret.
  - intros patients. destruct patients; [apply tracking_ret|].
    destruct (Nat.ltb _ _); [apply tracking_ret | apply tracking_fetch_filter_format].
Qed.

Lemma within_impl patient_name date provider_name status patient_id :
  within 7 (_find_appointments_impl patient_name date provider_name status patient_id).
Proof.
  assert (∀ pids, (length pids ≤ 5)%nat →
            within 7 (fetch_filter_format pids date provider_name status)) as Hfew.
  { intros pids Hp. eapply within_le; [|apply within_fetch_filter_format]. lia. }
  unfold Tool._find_appointments_impl.
  destruct patient_id as [id|]; [apply Hfew; cbn; lia|].
  destruct patient_name as [name|]; [|apply Hfew; cbn; lia].
  destruct (opt_truthy (Some name)); [|apply Hfew; cbn; lia].
  apply (within_bind 2 5); [apply within_search|]. intros patients.
  destruct patients as [|p l]; [apply (within_le 0); [lia|apply within_ret]|].
  destruct (Nat.ltb_spec 5 (length (p :: l))); [apply (within_le 0); [lia|apply within_ret]|].
  eapply within_le; [|apply within_fetch_filter_format].
  pose proof (pids_of_length (p :: l)). lia.
Qed.

(** X14: every search calls the client at least once and at most seven
    times, whatever the answers: the first call is the per-patient fetch
    when a [patient_id] is given, else the last-name search when a
    non-empty name is given, else the fetch of all appointments; at most
    six calls follow it. *)
Theorem one_to_seven_calls
    (patient_name date provider_name status : option string)
    (patient_id : option Z) (log : list call) :
  ∃ rest,
    (_find_appointments_impl patient_name date provider_name status patient_id log).2
      = (log ++ first_call patient_name patient_id :: rest)%list
    ∧ (length rest ≤ 6)%nat.
Proof.
  destruct (opens_impl patient_name date provider_name status patient_id log)
    as (rest & Hopens).
  destruct (within_impl patient_name date provider_name status patient_id log)
    as (new & Hwithin & Hlen).
  exists rest. split; [done|].
  rewrite Hopens in Hwithin. apply app_inv_head in Hwithin. subst new.
  cbn in Hlen. lia.
Qed.

(** X15: [_search_patients] asks by last name first; when that answer
    unwraps to something truthy it is the outcome and no second call is
    made; when it unwraps to something falsy the search by first name is
    made and decides the outcome, its exception included; and an
    exception of the first call is raised after that one call. *)
Theorem search_falls_back_to_first_name (name : string) (log : list call) :
  let by_last := search_call "lname" name in
  let by_first := search_call "fname" name in
  (∀ j, remote log by_last = Ok j → py_truthy (unwrap j) = true →
        _search_patients name log = (Ok (as_list (unwrap j)), log ++ [by_last])%list)
  ∧ (∀ j, remote log by_last = Ok j → py_truthy (unwrap j) = false →
          _search_patients name log
          = (match remote (log ++ [by_last])%list by_first with
             | Ok j' => Ok (as_list (unwrap j'))
             | Raise e => Raise e
             end, log ++ [by_last; by_first])%list)
  ∧ (∀ e, remote log by_last = Raise e →
          _search_patients name log = (Raise e, log ++ [by_last])%list).
Proof.
  cbv zeta. unfold Tool._search_patients, mbind, M_bind, Tool.client_get, search_call.
  repeat split.
  - intros j Hj Ht. rewrite Hj, Ht. reflexivity.
  - intros j Hj Ht. rewrite Hj, Ht. cbn [negb].
    rewrite <- app_assoc. cbn [app].
    by destruct (remote (log ++ [_])%list _).
  - intros e He. by rewrite He.
Qed.

(** X16: an answer that is a list, or an object whose [data] is a list,
    unwraps to that list; an answer that unwraps to a non-empty list has
    one of these two shapes (every other answer gives the empty list);
    and the two fetches return the unwrapped answer of their one call. *)
Theorem bare_list_or_envelope (j : json) (l : list record) :
  ((j = JList l ∨ ∃ d, j = JDict d ∧ d !! "data" = Some (JList l)) →
     as_list (unwrap j) = l)
  ∧ (as_list (unwrap j) = l → l ≠ [] →
       j = JList l ∨ ∃ d, j = JDict d ∧ d !! "data" = Some (JList l))
  ∧ (∀ log, remote log fetch_all_call = Ok j →
       _fetch_all_appointments remote log
       = (Ok (as_list (unwrap j)), log ++ [fetch_all_call])%list)
  ∧ (∀ log pid, remote log (fetch_call pid) = Ok j →
       _fetch_appointments_for_patient remote pid log
       = (Ok (as_list (unwrap j)), log ++ [fetch_call pid])%list).
Proof.
  split; [|split; [|split]].
  - intros [->|(d & -> & Hd)]; [done|]. cbn. unfold dict_get_or. by rewrite Hd.
  - intros Hl Hne. destruct j as [| | | |l'|d]; cbn in Hl; try congruence.
    + left. congruence.
    + right. exists d. split; [done|]. unfold dict_get_or in Hl.
      destruct (d !! "data") as [[| | | |l'|d']|]; cbn in Hl; congruence.
  - intros log Hj. unfold _fetch_all_appointments, mbind, M_bind, Tool.client_get.
    unfold fetch_all_call in Hj. by rewrite Hj.
  - intros log pid Hj. unfold _fetch_appointments_for_patient, mbind, M_bind, Tool.client_get.
    unfold fetch_call in Hj. by rewrite Hj.
Qed.

(** X17: the appointments fetched for several patients are the
    concatenation, in the order of the identifiers, of what each
    per-patient fetch unwrapped to, appended to what was there before. *)
Theorem appointments_concatenate_in_order (pids : list json) :
  ∀ raw log out log',
    extend_each raw pids log = (Ok out, log') →
    ∃ chunks,
      out = (raw ++ concat chunks)%list
      ∧ Forall2 (λ pid chunk, ∃ before j,
                   remote before (fetch_call pid) = Ok j
                   ∧ chunk = as_list (unwrap j)) pids chunks.
Proof.
  induction pids as [|pid pids IH]; intros raw log out log'; cbn [Tool.extend_each].
  - intros [= <- _]. exists []. by rewrite app_nil_r.
  - unfold mbind at 1, M_bind at 1.
    unfold _fetch_appointments_for_patient at 1, mbind at 1, M_bind at 1, Tool.client_get.
    destruct (remote log _) as [j|e] eqn:Hj; [|done]. cbn.
    intros Hrun. apply IH in Hrun as (chunks & -> & Hall).
    exists (as_list (unwrap j) :: chunks). split; [by rewrite <- app_assoc|].
    constructor; [|done]. by exists log, j.
Qed.

Lemma fetch_filter_format_inv pids date provider_name status log r log' :
  fetch_filter_format pids date provider_name status log = (Ok r, log') →
  ∃ raw, build_result (client_side_filtering date provider_name status raw) = Ok r.
Proof.
  unfold Tool.fetch_filter_format, mbind, M_bind, lift.
  destruct (fetch_appointments pids log) as [[raw|e] log1]; [|done].
  intros [= Hr _]. eauto.
Qed.

(** X18: in every result the tool returns for a non-empty [date], each
    appointment carries that very date; and for a non-empty [status],
    each appointment carries that very status code. *)
Theorem results_meet_date_and_status
    (patient_name date provider_name status : option string)
    (patient_id : option Z) (log : list call) (r : Result.t) (log' : list call) :
  _find_appointments_impl patient_name date provider_name status patient_id log
    = (Ok r, log') →
  (∀ d, date = Some d → d ≠ "" →
        Forall (λ a, Appt.date a = JStr d) (Result.appointments r))
  ∧ (∀ c, status = Some c → c ≠ "" →
          Forall (λ a, Appt.status a = JStr c) (Result.appointments r)).
Proof.
  assert (∀ pids, fetch_filter_format pids date provider_name status log = (Ok r, log') →
          (∀ d, date = Some d → d ≠ "" →
                Forall (λ a, Appt.date a = JStr d) (Result.appointments r))
          ∧ (∀ c, status = Some c → c ≠ "" →
                  Forall (λ a, Appt.status a = JStr c) (Result.appointments r)))
    as Hfetched.
  { intros pids Hrun. apply fetch_filter_format_inv in Hrun as [raw Hraw].
    by eapply build_result_meets_date_and_status. }
  unfold Tool._find_appointments_impl.
  destruct patient_id as [id|]; [apply Hfetched|].
  destruct patient_name as [name|]; [|apply Hfetched].
  destruct (opt_truthy (Some name)); [|apply Hfetched].
  unfold mbind at 1, M_bind at 1.
  destruct (_search_patients name log) as [[patients|e] log1]; [|done].
  destruct patients as [|p patients]; [by intros [= <- _]|].
  destruct (Nat.ltb 5 (length (p :: patients))); [by intros [= <- _]|].
  unfold Tool.fetch_filter_format, mbind, M_bind, lift.
  destruct (Tool.fetch_appointments remote _ log1) as [[raw|e] log2]; [|done].
  intros [= Hr _]. by eapply build_result_meets_date_and_status.
Qed.

(** X19: when the search for a non-empty name finds no patient, the tool
    returns no appointment, a [total_count] of 0, the message that names
    the searched name and no list of matching patients, and makes no call
    after the patient search. *)
Theorem nobody_found (name : string) (date provider_name status : option string)
    (log log' : list call) :
  name ≠ "" →
  _search_patients name log = (Ok [], log') →
  _find_appointments_impl (Some name) date provider_name status None log
  = (Ok {| Result.appointments := [];
           Result.total_count := 0;
           Result.message := Some ("No patients found matching '" +:+ name +:+ "'.");
           Result.matching_patients := None |}, log').
Proof.
  intros Hname Hsearch. unfold Tool._find_appointments_impl. cbn [opt_truthy].
  destruct (String.eqb_spec name "") as [|_]; [done|]. cbn [negb].
  unfold mbind, M_bind. fold _search_patients. by rewrite Hsearch.
Qed.

End Search.

(** ** The theorems at work on the fixtures *)

#[local] Existing Instance opaque_repr.


Lemma appointments_concatenate_in_order_witness :
  extend_each (H := opaque_repr) two_patients [] [JInt 10; JInt 77] []
  = (Ok (three_visits ++ [janes_visit])%list,
     [fetch_call (H := opaque_repr) (JInt 10); fetch_call (H := opaque_repr) (JInt 77)])
  ∧ ∃ chunks,
      (three_visits ++ [janes_visit])%list = concat chunks
      ∧ length chunks = 2%nat.
Proof.
  assert (extend_each (H := opaque_repr) two_patients [] [JInt 10; JInt 77] []
          = (Ok (three_visits ++ [janes_visit])%list,
             [fetch_call (H := opaque_repr) (JInt 10);
              fetch_call (H := opaque_repr) (JInt 77)])) as Hrun
    by (vm_compute; reflexivity).
  split; [exact Hrun|].
  destruct (appointments_concatenate_in_order (H := opaque_repr) two_patients
              [JInt 10; JInt 77] [] [] _ _ Hrun) as (chunks & Hout & Hall).
  exists chunks. split; [exact Hout|].
  symmetry. exact (Forall2_length _ _ _ Hall).
Defined.

Lemma results_meet_date_and_status_witness :
  ∃ r log',
    _find_appointments_impl (H := opaque_repr) (_mock_client [] three_visits [])
      None (Some "2026-03-01") None (Some "@") None [] = (Ok r, log')
    ∧ Result.total_count r = 1
    ∧ Forall (λ a, Appt.date a = JStr "2026-03-01") (Result.appointments r)
    ∧ Forall (λ a, Appt.status a = JStr "@") (Result.appointments r).
Proof.
  destruct (_find_appointments_impl (H := opaque_repr) (_mock_client [] three_visits [])
              None (Some "2026-03-01") None (Some "@") None []) as [[r|e] log'] eqn:Hrun;
    [|vm_compute in Hrun; discriminate Hrun].
  destruct (results_meet_date_and_status (H := opaque_repr)
              (_mock_client [] three_visits []) None (Some "2026-03-01") None (Some "@")
              None [] r log' Hrun) as [Hdate Hstatus].
  exists r, log'. split; [reflexivity|].
  split; [|split; [apply (Hdate _ eq_refl) | apply (Hstatus _ eq_refl)]; discriminate].
  vm_compute in Hrun. injection Hrun as <- _. reflexivity.
Defined.

Lemma nobody_found_witness :
  _find_appointments_impl (H := opaque_repr) (_mock_client [] three_visits [])
    (Some "Nobody") None None None None []
  = (Ok {| Result.appointments := [];
           Result.total_count := 0;
           Result.message := Some "No patients found matching 'Nobody'.";
           Result.matching_patients := None |},
     [search_call "lname" "Nobody"; search_call "fname" "Nobody"]).
Proof.
  apply (nobody_found (H := opaque_repr) (_mock_client [] three_visits []) "Nobody"
           None None None []).
  - discriminate.
  - vm_compute. reflexivity.
Defined.

End ToolMore.

(* ===================================================================== *)
(** * Registration and routing                                            *)
(* ===================================================================== *)

Module RegMore.
Import Client Fixtures Registration Agent Worlds.

(** X20: [register_client] returns a result only when the registration
    endpoint answered 200 or 201 with a JSON object, which is the result;
    the request it sent registers a private application and always names
    at least one redirect URI, the caller's when the caller gave any. *)
Theorem registration_needs_200_or_201
    (registrar : registration_request → res response)
    (base name : string) (uris : option (list string)) (scopes : string)
    (result : record) :
  register_client registrar base name uris scopes = Registered result →
  ∃ req resp,
    registrar req = Ok resp
    ∧ (status_code resp = 200 ∨ status_code resp = 201)
    ∧ decoded resp = Some (JDict result)
    ∧ application_type (reg_json req) = "private"
    ∧ redirect_uris (reg_json req) ≠ []
    ∧ (∀ u us, uris = Some (u :: us) → redirect_uris (reg_json req) = u :: us).
Proof.
  unfold register_client. intros Hrun.
  eexists. destruct (registrar _) as [resp|e] eqn:Hreg; [|done].
  exists resp. split; [done|].
  destruct (Z.eqb_spec (status_code resp) 200) as [H200|];
    [|destruct (Z.eqb_spec (status_code resp) 201) as [H201|]; [|done]];
    cbn [orb negb] in Hrun; unfold json_of in Hrun;
    (destruct (decoded resp) as [[| | | | |d]|]; try done; injection Hrun as ->);
    (split; [auto|]; split; [done|]; split; [done|]; cbn; split;
       [by destruct uris as [[|? ?]|] | by intros u us ->]).
Qed.

(** X21: when the registration endpoint answers with a status other than
    200 and 201, [register_client] raises [OpenEMRAuthError] with the
    status and the body of the answer in its message. *)
Theorem registration_refused
    (registrar : registration_request → res response)
    (base name : string) (uris : option (list string)) (scopes : string)
    (resp : response) :
  (∀ req, registrar req = Ok resp) →
  status_code resp ≠ 200 → status_code resp ≠ 201 →
  register_client registrar base name uris scopes
  = RegistrationRaised
      (OpenEMRAuthError
         ("Client registration failed (" +:+ pretty (status_code resp) +:+ "): "
          +:+ text resp)).
Proof.
  intros Hreg H200 H201. unfold register_client. rewrite Hreg.
  destruct (Z.eqb_spec (status_code resp) 200); [done|].
  destruct (Z.eqb_spec (status_code resp) 201); done.
Qed.

(** X22: [route] depends on the last message only: it answers "tools"
    exactly when that message has a non-empty [tool_calls], and [END]
    exactly when it has none or an empty one; on an empty conversation
    it raises. *)
Theorem route_reads_the_last_message (earlier : list message) (m : message) :
  route (earlier ++ [m]) = route [m]
  ∧ (route (earlier ++ [m]) = Some "tools" ↔ ∃ c cs, tool_calls m = Some (c :: cs))
  ∧ (route (earlier ++ [m]) = Some END ↔ tool_calls m = None ∨ tool_calls m = Some [])
  ∧ route [] = None.
Proof.
  unfold route. rewrite last_snoc. cbn [last].
  destruct (tool_calls m) as [[|c cs]|]; repeat split; try done; eauto.
  - intros (? & ? & [=]).
  - intros [[=]|[=]].
  - intros (? & ? & [=]).
Qed.

Lemma registration_needs_200_or_201_witness :
  register_client registering "http://openemr:80/" "openemr-ai-agent" None DEFAULT_SCOPES
  = Registered {[ "client_id" := JStr "new-client"; "client_secret" := JStr "new-secret" ]}
  ∧ ∃ req resp,
      registering req = Ok resp
      ∧ (status_code resp = 200 ∨ status_code resp = 201)
      ∧ reg_base_url req = "http://openemr:80"
      ∧ redirect_uris (reg_json req) = ["https://localhost"].
Proof.
  assert (register_client registering "http://openemr:80/" "openemr-ai-agent" None
            DEFAULT_SCOPES
          = Registered {[ "client_id" := JStr "new-client";
                          "client_secret" := JStr "new-secret" ]}) as Hrun
    by reflexivity.
  split; [exact Hrun|].
  destruct (registration_needs_200_or_201 registering "http://openemr:80/"
              "openemr-ai-agent" None DEFAULT_SCOPES _ Hrun)
    as (req & resp & Hreq & Hstatus & _).
  exists {| reg_base_url := "http://openemr:80";
            reg_path := "/oauth2/default/registration";
            reg_json := {| application_type := "private";
                           client_name := "openemr-ai-agent";
                           redirect_uris := ["https://localhost"];
                           scope := DEFAULT_SCOPES |} |}, resp.
  split; [exact Hreq|]. split; [exact Hstatus|]. split; reflexivity.
Defined.

Lemma registration_refused_witness :
  register_client refusing "http://openemr:80" "openemr-ai-agent"
    (Some ["https://agent.example/callback"]) DEFAULT_SCOPES
  = RegistrationRaised
      (OpenEMRAuthError "Client registration failed (403): registration is off").
Proof.
  apply (registration_refused refusing "http://openemr:80" "openemr-ai-agent"
           (Some ["https://agent.example/callback"]) DEFAULT_SCOPES forbidden).
  - reflexivity.
  - discriminate.
  - discriminate.
Defined.

End RegMore.

(* ===================================================================== *)
(** * The tool on the real client                                         *)
(* ===================================================================== *)

Module ExposedMore.
Import Client Tool Fixtures ClientFacts ToolFacts Trace ToolMore Exposed Worlds.

Section Facts.
Context `{PyRepr}.

Lemma first_call_raises (remote : list call → call → res json)
    patient_name date provider_name status patient_id log e :
  remote log (first_call patient_name patient_id) = Raise e →
  _find_appointments_impl remote patient_name date provider_name status patient_id log
  = (Raise e, log ++ [first_call patient_name patient_id])%list.
Proof.
  unfold first_call, Tool._find_appointments_impl.
  destruct patient_id as [id|].
  { unfold fetch_call. intros He.
    unfold fetch_filter_format, fetch_appointments. cbn [extend_each].
    unfold _fetch_appointments_for_patient, mbind, M_bind, client_get.
    by rewrite He. }
  assert (remote log fetch_all_call = Raise e →
          fetch_filter_format remote [] date provider_name status log
          = (Raise e, log ++ [fetch_all_call])%list) as Hall.
  { unfold fetch_all_call. intros He.
    unfold fetch_filter_format, fetch_appointments, _fetch_all_appointments,
      mbind, M_bind, client_get.
    by rewrite He. }
  destruct patient_name as [name|]; [|done].
  destruct (opt_truthy (Some name)); [|done].
  unfold search_call. intros He.
  unfold _search_patients, mbind, M_bind, client_get.
  by rewrite He.
Qed.





Context (server : list request → request → res response).
Context (clock : nat → Z).
Context (timeout_text : string).

Local Abbreviation find_appointments := (find_appointments server clock timeout_text).

(** When the first exchange of the new client fails, the search ends with
    that failure after the token request alone. *)
Lemma failed_first_exchange settings patient_name date provider_name status
    patient_id sent0 reads0 e s1 :
  let client := init (openemr_base_url settings) (openemr_client_id settings)
                  (openemr_client_secret settings) (openemr_username settings)
                  (openemr_password settings) DEFAULT_SCOPES in
  let s0 := {| self := client; sent := sent0; clock_reads := reads0 |} in
  authenticate server clock s0 = (Raise e, s1) →
  find_appointments settings patient_name date provider_name status patient_id
    sent0 reads0
  = (tool_error timeout_text e, s1).
Proof.
  intros client s0 Hauth. unfold Exposed.find_appointments. fold client. fold s0.
  cbv zeta.
  assert (∀ c, get server clock (path c) (params c) s0 = (Raise e, s1)) as Hget.
  { intros c. unfold get. rewrite call_unfold, ensure_token_unfold.
    cbn [self s0 client init _access_token]. by rewrite Hauth. }
  rewrite (first_call_raises (live_get server clock s0) _ _ _ _ _ [] e).
  - cbn [fst snd app]. unfold session_after. cbn [foldl]. by rewrite Hget.
  - unfold live_get, session_after. cbn [foldl]. by rewrite Hget.
Qed.

(** X23: when the token endpoint refuses the credentials of the settings,
    the tool does not turn the failure into a [ToolException]: the
    [OpenEMRAuthError] leaves the tool as it is, and the token request is
    the only request sent. *)
Theorem refused_credentials_propagate (settings : Settings)
    (patient_name date provider_name status : option string)
    (patient_id : option Z) (sent0 : list request) (reads0 : nat)
    (resp : response) :
  let client := init (openemr_base_url settings) (openemr_client_id settings)
                  (openemr_client_secret settings) (openemr_username settings)
                  (openemr_password settings) DEFAULT_SCOPES in
  server sent0 (token_request client) = Ok resp →
  status_code resp ≠ 200 →
  find_appointments settings patient_name date provider_name status patient_id
    sent0 reads0
  = (Propagated
       (OpenEMRAuthError
          ("Token request failed (" +:+ pretty (status_code resp) +:+ "): "
           +:+ text resp)),
     {| self := client; sent := sent0 ++ [token_request client];
        clock_reads := reads0 |}).
Proof.
  intros client Hsrv Hst.
  apply (failed_first_exchange settings patient_name date provider_name status
           patient_id sent0 reads0
           (OpenEMRAuthError (auth_error_message (status_code resp) (text resp)))).
  rewrite authenticate_unfold. cbn [sent self]. fold client. rewrite Hsrv. cbv zeta.
  by destruct (Z.eqb_spec (status_code resp) 200).
Qed.

(** X24: when the first exchange times out, the tool raises a
    [ToolException] whose message asks to try again, after that one
    request. *)
Theorem timeout_becomes_tool_exception (settings : Settings)
    (patient_name date provider_name status : option string)
    (patient_id : option Z) (sent0 : list request) (reads0 : nat) :
  let client := init (openemr_base_url settings) (openemr_client_id settings)
                  (openemr_client_secret settings) (openemr_username settings)
                  (openemr_password settings) DEFAULT_SCOPES in
  server sent0 (token_request client) = Raise TimeoutException →
  find_appointments settings patient_name date provider_name status patient_id
    sent0 reads0
  = (ToolException
       ("OpenEMR API timed out: " +:+ timeout_text +:+ ". Please try again."),
     {| self := client; sent := sent0 ++ [token_request client];
        clock_reads := reads0 |}).
Proof.
  intros client Hsrv.
  apply (failed_first_exchange settings patient_name date provider_name status
           patient_id sent0 reads0 TimeoutException).
  rewrite authenticate_unfold. cbn [sent self]. fold client. by rewrite Hsrv.
Qed.




End Facts.

(** ** The theorems at work on the fixtures *)

#[local] Existing Instance opaque_repr.

Lemma refused_credentials_propagate_witness :
  (find_appointments (H := opaque_repr) rejecting frozen_clock "timed out"
     default_settings (Some "Doe") None None None None [] 0).1
  = Propagated (OpenEMRAuthError "Token request failed (400): invalid_grant").
Proof.
  rewrite (refused_credentials_propagate (H := opaque_repr) rejecting frozen_clock
             "timed out" default_settings (Some "Doe") None None None None [] 0
             invalid_grant);
    [ reflexivity | reflexivity | discriminate ].
Defined.

Lemma timeout_becomes_tool_exception_witness :
  (find_appointments (H := opaque_repr) timing_out frozen_clock "timed out"
     default_settings (Some "Doe") None None None None [] 0).1
  = ToolException "OpenEMR API timed out: timed out. Please try again.".
Proof.
  rewrite (timeout_becomes_tool_exception (H := opaque_repr) timing_out frozen_clock
             "timed out" default_settings (Some "Doe") None None None None [] 0);
    [ reflexivity | reflexivity ].
Defined.



End ExposedMore.
